(** * Better Yourself service worker (src/sw.js): generation manager and fetch router

    The source file holds two alternative workers back to back:
    - Policy A, lines 1-191   ("Service Worker", static + dynamic cache);
    - Policy B, lines 193-414 ("Offline-First Service Worker", static cache only).

    Both are embedded here over one model of the platform objects they call
    (CacheStorage, Cache, fetch, Response, console, message ports).  Promise
    chains become computations in a state-and-rejection monad; every platform
    call is recorded in a trace so that "no lookup", "no network call" and
    "one store write" are statements about that trace. *)

From stdpp Require Import base option list gmap strings.
From Stdlib Require Import ZArith Lia.

Local Open Scope string_scope.
Local Open Scope Z_scope.

(** ** Data *)

(** [Response.type] *)
Inductive ResponseType :=
  | TBasic | TCors | TDefault | TError | TOpaque | TOpaqueRedirect.

#[global] Instance ResponseType_eq_dec : EqDecision ResponseType.
Proof. solve_decision. Defined.

(** What a cache keeps of a response: status, type, headers, body bytes. *)
Record Snapshot := mkSnapshot {
  status : Z;
  rtype : ResponseType;
  headers : list (string * string);
  body : string
}.

#[global] Instance Snapshot_eq_dec : EqDecision Snapshot.
Proof. solve_decision. Defined.

(** A live [Response] object.  Its body is a single-read stream, named here
    by [resp_stream]; the world remembers which streams have been read. *)
Record Response := mkResponse {
  resp_data : Snapshot;
  resp_stream : nat
}.

#[global] Instance Response_eq_dec : EqDecision Response.
Proof. solve_decision. Defined.

(** The fields of [event.request] the worker looks at. *)
Record Request := mkRequest {
  method : string;
  url : string;
  destination : string
}.

(** Plain objects sent over the message channel. *)
Inductive JsValue :=
  | JsString (s : string)
  | JsBool (b : bool).

#[global] Instance JsValue_eq_dec : EqDecision JsValue.
Proof. solve_decision. Defined.

Definition JsObject := list (string * JsValue).

Fixpoint get_field (o : JsObject) (k : string) : option JsValue :=
  match o with
  | [] => None
  | (k', v) :: o' => if String.eqb k' k then Some v else get_field o' k
  end.

Definition has_field (o : JsObject) (k : string) : bool :=
  match get_field o k with Some _ => true | None => false end.

(** [event.data] ([None] is a falsy payload) and [event.ports]. *)
Record MessageEvent := mkMessageEvent {
  data : option JsObject;
  ports : list nat
}.

(** Reasons a promise rejects or a callback throws. *)
Inductive Error :=
  | NetworkError (u : string)      (* fetch(u) failed *)
  | BadStatus (u : string)         (* addAll: response for u is not ok *)
  | StorageError (name : string)   (* the store refused an open or a write *)
  | TypeError (msg : string).

Inductive Outcome (A : Type) :=
  | Fulfilled (a : A)
  | Rejected (e : Error).
Arguments Fulfilled {A} a.
Arguments Rejected {A} e.

(** Platform calls, in the order they are issued. *)
Inductive Effect :=
  | ConsoleLog (msg : string)
  | ConsoleError (msg : string)
  | CachesOpen (name : string)
  | CachesKeys
  | CachesDelete (name : string)
  | CachesMatch (u : string)
  | CacheAddAll (name : string) (us : list string)
  | CachePut (name : string) (u : string) (stream : nat)
  | NetFetch (u : string)
  | BodyClone (src dst : nat)
  | SkipWaiting
  | ClientsClaim
  | PostMessage (port : nat) (msg : JsObject).

#[global] Instance Effect_eq_dec : EqDecision Effect.
Proof. solve_decision. Defined.

(** One named generation: a map from request URL to the captured response. *)
Abbreviation Cache := (gmap string Snapshot).

(** The generation store, in creation order ([caches.keys()] order). *)
Abbreviation CacheStorage := (list (string * gmap string Snapshot)).

Record World := mkWorld {
  caches : CacheStorage;
  consumed : list nat;      (* body streams already read *)
  next_stream : nat;        (* next fresh stream name *)
  trace : list Effect
}.

(** What the worker cannot decide: its own location, the network, and
    whether the store accepts an open or a write. *)
Record Platform := mkPlatform {
  location_origin : string;             (* self.location.origin *)
  base_url : string;                    (* directory of the worker script, ends in / *)
  network : string -> option Snapshot;  (* None: the fetch rejects *)
  open_ok : string -> bool;             (* caches.open(name) resolves *)
  put_ok : string -> string -> bool     (* a write of url into name is accepted *)
}.

(** ** Promises as a state-and-rejection monad *)

Definition M (A : Type) : Type := World -> Outcome A * World.

Definition ret {A} (a : A) : M A := fun w => (Fulfilled a, w).

Definition throw {A} (e : Error) : M A := fun w => (Rejected e, w).

(** [p.then(f)] *)
Definition bind {A B} (p : M A) (f : A -> M B) : M B :=
  fun w =>
    match p w with
    | (Fulfilled a, w') => f a w'
    | (Rejected e, w') => (Rejected e, w')
    end.

(** [p.catch(h)] *)
Definition catch {A} (p : M A) (h : Error -> M A) : M A :=
  fun w =>
    match p w with
    | (Fulfilled a, w') => (Fulfilled a, w')
    | (Rejected e, w') => h e w'
    end.

(** A promise chain that is started and whose result nobody awaits. *)
Definition detach {A} (p : M A) : M unit :=
  fun w => (Fulfilled tt, snd (p w)).

Declare Scope promise_scope.
Delimit Scope promise_scope with promise.
Notation "x <- p ;; k" := (bind p (fun x => k))
  (at level 100, p at next level, right associativity) : promise_scope.
Notation "p ;; k" := (bind p (fun _ => k))
  (at level 100, right associativity) : promise_scope.
Local Open Scope promise_scope.

Definition emit (e : Effect) : M unit :=
  fun w => (Fulfilled tt,
            {| caches := caches w; consumed := consumed w;
               next_stream := next_stream w; trace := trace w ++ [e] |}).

Definition set_caches (cs : CacheStorage) : M unit :=
  fun w => (Fulfilled tt,
            {| caches := cs; consumed := consumed w;
               next_stream := next_stream w; trace := trace w |}).

Definition get_caches : M CacheStorage := fun w => (Fulfilled (caches w), w).

(** A new live response over [d], with a stream nobody has read. *)
Definition fresh_response (d : Snapshot) : M Response :=
  fun w => (Fulfilled {| resp_data := d; resp_stream := next_stream w |},
            {| caches := caches w; consumed := consumed w;
               next_stream := S (next_stream w); trace := trace w |}).

Definition mark_consumed (s : nat) : M unit :=
  fun w => (Fulfilled tt,
            {| caches := caches w; consumed := s :: consumed w;
               next_stream := next_stream w; trace := trace w |}).

Definition is_consumed (s : nat) : M bool :=
  fun w => (Fulfilled (bool_decide (s ∈ consumed w)), w).

(** [Promise.all(xs.map(f))]: every callback runs; the result rejects with
    the first rejection. *)
Fixpoint promise_all {A B} (f : A -> M B) (xs : list A) : M (list B) :=
  match xs with
  | [] => ret []
  | x :: xs' =>
      fun w =>
        match f x w with
        | (Fulfilled b, w1) =>
            match promise_all f xs' w1 with
            | (Fulfilled bs, w2) => (Fulfilled (b :: bs), w2)
            | (Rejected e, w2) => (Rejected e, w2)
            end
        | (Rejected e, w1) => (Rejected e, snd (promise_all f xs' w1))
        end
  end.

(** ** The generation store *)

(** [caches.match]: generations are searched in creation order and the first
    one holding the URL answers.  Requests are matched by URL. *)
Fixpoint storage_lookup (cs : CacheStorage) (u : string) : option Snapshot :=
  match cs with
  | [] => None
  | (_, c) :: cs' =>
      match c !! u with
      | Some d => Some d
      | None => storage_lookup cs' u
      end
  end.

Definition has_cache (name : string) (cs : CacheStorage) : bool :=
  existsb (fun p => String.eqb (fst p) name) cs.

(** [caches.open] creates the generation when it is absent. *)
Definition storage_open (name : string) (cs : CacheStorage) : CacheStorage :=
  if has_cache name cs then cs else cs ++ [(name, ∅)].

Definition storage_delete (name : string) (cs : CacheStorage) : CacheStorage :=
  List.filter (fun p => negb (String.eqb (fst p) name)) cs.

Definition storage_put (name u : string) (d : Snapshot) (cs : CacheStorage)
  : CacheStorage :=
  List.map (fun p => if String.eqb (fst p) name
                     then (fst p, <[u := d]> (snd p)) else p) cs.

Definition storage_put_all (name : string) (es : list (string * Snapshot))
    (cs : CacheStorage) : CacheStorage :=
  fold_left (fun acc e => storage_put name (fst e) (snd e) acc) es cs.

(** The entry that generation [name] holds for [u]. *)
Definition cache_entry (name u : string) (cs : CacheStorage) : option Snapshot :=
  match List.find (fun p => String.eqb (fst p) name) cs with
  | Some p => snd p !! u
  | None => None
  end.

(** [Response.ok] as [cache.addAll] needs it: a 2xx status other than 206. *)
Definition response_ok (d : Snapshot) : bool :=
  (200 <=? status d) && (status d <=? 299) && negb (status d =? 206).

(** ** URLs *)

(** [s.startsWith(p)] *)
Definition startsWith (s p : string) : bool := String.prefix p s.

(** [s.includes(p)] *)
Definition includes (s p : string) : bool :=
  match String.index 0 p s with Some _ => true | None => false end.

Fixpoint until_slash (s : string) : string :=
  match s with
  | EmptyString => EmptyString
  | String c r =>
      if Ascii.eqb c (Ascii.ascii_of_nat 47) then EmptyString
      else String c (until_slash r)
  end.

Fixpoint drop_chars (n : nat) (s : string) : string :=
  match n, s with
  | O, _ => s
  | S n', String _ r => drop_chars n' r
  | S _, EmptyString => EmptyString
  end.

Fixpoint take_chars (n : nat) (s : string) : string :=
  match n, s with
  | S n', String c r => String c (take_chars n' r)
  | _, _ => EmptyString
  end.

(** The origin of a serialized http(s) URL, as the platform compares
    origins: scheme, [://], host and port, that is everything before the
    first [/] of the path.  A string with no [://] has no such origin. *)
Definition url_origin (u : string) : option string :=
  match String.index 0 "://" u with
  | Some i => Some (take_chars (i + 3) u ++ until_slash (drop_chars (i + 3) u))
  | None => None
  end.

(** The request goes to the origin the worker is served from. *)
Definition same_origin (origin : string) (req : Request) : Prop :=
  url_origin (url req) = Some origin.

(** ** Platform calls *)

Definition console_log (msg : string) : M unit := emit (ConsoleLog msg).
Definition console_error (msg : string) : M unit := emit (ConsoleError msg).

(** [caches.keys()] *)
Definition caches_keys : M (list string) :=
  emit CachesKeys ;;
  cs <- get_caches ;;
  ret (List.map fst cs).

(** [caches.delete(name)]: resolves to whether the generation existed. *)
Definition caches_delete (name : string) : M bool :=
  emit (CachesDelete name) ;;
  cs <- get_caches ;;
  set_caches (storage_delete name cs) ;;
  ret (has_cache name cs).

(** [caches.match(request)]: resolves to a response or to [undefined]. *)
Definition caches_match (u : string) : M (option Response) :=
  emit (CachesMatch u) ;;
  cs <- get_caches ;;
  match storage_lookup cs u with
  | Some d => (r <- fresh_response d ;; ret (Some r))
  | None => ret None
  end.

(** [response.clone()]: throws on a body already read. *)
Definition response_clone (r : Response) : M Response :=
  used <- is_consumed (resp_stream r) ;;
  if (used : bool) then throw (TypeError "Response body is already used")
  else (c <- fresh_response (resp_data r) ;;
        emit (BodyClone (resp_stream r) (resp_stream c)) ;;
        ret c).

(** [self.skipWaiting()] and [self.clients.claim()] *)
Definition skipWaiting : M unit := emit SkipWaiting.
Definition clients_claim : M unit := emit ClientsClaim.

(** [new Response(body, {headers})] *)
Definition new_response (b : string) (hs : list (string * string)) : M Response :=
  fresh_response {| status := 200; rtype := TDefault; headers := hs; body := b |}.

(** [event.ports[0].postMessage(msg)]: throws when there is no port. *)
Definition post_message (ev : MessageEvent) (msg : JsObject) : M unit :=
  match ports ev with
  | p :: _ => emit (PostMessage p msg)
  | [] => throw (TypeError "Cannot read properties of undefined")
  end.

(** [event.data && event.data.type === t] *)
Definition data_type_is (ev : MessageEvent) (t : string) : bool :=
  match data ev with
  | Some o => bool_decide (get_field o "type" = Some (JsString t))
  | None => false
  end.

Section Primitives.

Variable P : Platform.

(** A relative URL such as [./index.html] is resolved against the
    directory of the worker script; an absolute one stands for itself.
    Requests built from a string ([caches.match('./index.html')], the
    entries of [cache.addAll]) go through this; [event.request.url] is
    absolute already. *)
Definition resolve_url (rel : string) : string :=
  if startsWith rel "./" then base_url P ++ drop_chars 2 rel else rel.

(** [caches.open(name)]: resolves to the generation's handle (its name). *)
Definition caches_open (name : string) : M string :=
  emit (CachesOpen name) ;;
  if open_ok P name
  then (cs <- get_caches ;; set_caches (storage_open name cs) ;; ret name)
  else throw (StorageError name).

(** [fetch(request)] *)
Definition fetch (u : string) : M Response :=
  emit (NetFetch u) ;;
  match network P u with
  | Some d => fresh_response d
  | None => throw (NetworkError u)
  end.

(** [cache.put(request, response)]: reads the response body and stores it
    under the request URL.  The store may refuse the write (quota, a
    [Vary: *] header). *)
Definition cache_put (name u : string) (r : Response) : M unit :=
  emit (CachePut name u (resp_stream r)) ;;
  used <- is_consumed (resp_stream r) ;;
  if (used : bool) then throw (TypeError "Response body is already used")
  else if put_ok P name u
  then (mark_consumed (resp_stream r) ;;
        cs <- get_caches ;;
        set_caches (storage_put name u (resp_data r) cs))
  else throw (StorageError name).

(** What [cache.addAll] does with one URL once every fetch has settled. *)
Definition addAll_entry (name u : string) : Outcome (string * Snapshot) :=
  match network P u with
  | None => Rejected (NetworkError u)
  | Some d =>
      if response_ok d
      then if put_ok P name u
           then Fulfilled (u, d)
           else Rejected (StorageError name)
      else Rejected (BadStatus u)
  end.

Fixpoint addAll_entries (name : string) (us : list string)
  : Outcome (list (string * Snapshot)) :=
  match us with
  | [] => Fulfilled []
  | u :: us' =>
      match addAll_entry name u with
      | Rejected e => Rejected e
      | Fulfilled e =>
          match addAll_entries name us' with
          | Rejected e' => Rejected e'
          | Fulfilled es => Fulfilled (e :: es)
          end
      end
  end.

(** [cache.addAll(urls)]: every URL is fetched; the entries are written
    together, and only when every response is ok and storable. *)
Definition cache_addAll (name : string) (rels : list string) : M unit :=
  let us := List.map resolve_url rels in
  emit (CacheAddAll name us) ;;
  promise_all (fun u => emit (NetFetch u)) us ;;
  match addAll_entries name us with
  | Fulfilled es =>
      cs <- get_caches ;; set_caches (storage_put_all name es cs)
  | Rejected e => throw e
  end.

End Primitives.

(** ** Events *)

(** A fetch event ends in one of two ways: the listener returns without
    calling [event.respondWith] and the request goes its normal way, or it
    hands the platform a promise of a response ([None] is [undefined]). *)
Inductive Interception :=
  | PassThrough
  | RespondWith (o : Outcome (option Response)).

(** An event stays alive for every promise handed to [event.waitUntil], and
    fails when one of them rejects. *)
Definition wait_until_both (p q : M unit) : M unit :=
  fun w =>
    match p w with
    | (o1, w1) =>
        match q w1 with
        | (o2, w2) =>
            (match o1 with Rejected e => Rejected e | Fulfilled _ => o2 end, w2)
        end
    end.

(** The install phase succeeded, so the worker may go on to activation. *)
Definition activatable (o : Outcome unit) : bool :=
  match o with Fulfilled _ => true | Rejected _ => false end.

(** [networkResponse.status !== 200 || networkResponse.type !== 'basic'];
    the guard's first disjunct, [!networkResponse], never holds for a
    response that [fetch] resolved to. *)
Definition not_cacheable (r : Response) : bool :=
  negb (status (resp_data r) =? 200)
  || negb (bool_decide (rtype (resp_data r) = TBasic)).

(** ** Policy A: src/sw.js lines 1-191 *)

Module PolicyA.

Definition CACHE_NAME : string := "better-yourself-v1.0.0".
Definition STATIC_CACHE : string := "better-yourself-static-v1".
Definition DYNAMIC_CACHE : string := "better-yourself-dynamic-v1".

Definition STATIC_FILES : list string :=
  ["./"; "./index.html"; "./manifest.json"].

(** [cacheName !== STATIC_CACHE && cacheName !== DYNAMIC_CACHE] *)
Definition is_old (cacheName : string) : bool :=
  negb (String.eqb cacheName STATIC_CACHE)
  && negb (String.eqb cacheName DYNAMIC_CACHE).

Section Handlers.

Variable P : Platform.

(** Lines 19-32: the promise given to [event.waitUntil]. *)
Definition install_promise : M unit :=
  catch
    (cache <- caches_open P STATIC_CACHE ;;
     (console_log "Service Worker: Caching static files" ;;
      cache_addAll P cache STATIC_FILES) ;;
     console_log "Service Worker: Installation complete" ;;
     skipWaiting)
    (fun error => console_error "Service Worker: Installation failed").

(** Lines 175-186. *)
Definition cleanupCaches : M (list bool) :=
  cacheNames <- caches_keys ;;
  promise_all (caches_delete) (List.filter is_old cacheNames).

(** The install event: the listener of lines 16-33, then the listener of
    lines 189-191, which starts [cleanupCaches] without waiting for it.
    The two chains touch different generations. *)
Definition on_install : M unit :=
  fun w =>
    match (console_log "Service Worker: Installing..." ;; install_promise) w with
    | (o, w1) => (o, snd (detach cleanupCaches w1))
    end.

(** Lines 36-57. *)
Definition on_activate : M unit :=
  console_log "Service Worker: Activating..." ;;
  cacheNames <- caches_keys ;;
  promise_all
    (fun cacheName =>
       if is_old cacheName
       then (console_log "Service Worker: Deleting old cache" ;;
             b <- caches_delete cacheName ;; ret (Some b))
       else ret None)
    cacheNames ;;
  console_log "Service Worker: Activation complete" ;;
  clients_claim.

(** Lines 92-99: the write of the clone, started and not awaited.  The
    promise of [cache.put] is not returned from the callback, so the
    [catch] sees only a failed [caches.open]. *)
Definition cache_dynamic (req : Request) (responseToCache : Response) : M unit :=
  detach
    (catch
       (cache <- caches_open P DYNAMIC_CACHE ;;
        console_log "Service Worker: Caching dynamic content" ;;
        detach (cache_put P cache (url req) responseToCache))
       (fun error =>
          console_error "Service Worker: Failed to cache dynamic content")).

(** Lines 72-114: the promise given to [event.respondWith]. *)
Definition respond (req : Request) : M (option Response) :=
  cachedResponse <- caches_match (url req) ;;
  match cachedResponse with
  | Some r =>
      console_log "Service Worker: Serving from cache" ;;
      ret (Some r)
  | None =>
      catch
        (networkResponse <- fetch P (url req) ;;
         if not_cacheable networkResponse
         then ret (Some networkResponse)
         else (responseToCache <- response_clone networkResponse ;;
               cache_dynamic req responseToCache ;;
               ret (Some networkResponse)))
        (fun error =>
           console_error "Service Worker: Network fetch failed" ;;
           if String.eqb (destination req) "document"
           then caches_match (resolve_url P "./index.html")
           else throw error)
  end.

(** Lines 60-116. *)
Definition on_fetch (req : Request) : World -> Interception * World :=
  fun w =>
    if negb (String.eqb (method req) "GET") then (PassThrough, w)
    else if negb (startsWith (url req) (location_origin P)) then (PassThrough, w)
    else match respond req w with
         | (o, w') => (RespondWith o, w')
         end.

(** Lines 162-172. *)
Definition on_message (ev : MessageEvent) : M unit :=
  console_log "Service Worker: Message received" ;;
  (if data_type_is ev "SKIP_WAITING" then skipWaiting else ret tt) ;;
  (if data_type_is ev "GET_VERSION"
   then post_message ev [("version", JsString CACHE_NAME)]
   else ret tt).

End Handlers.

(** Lines 119-129: the promise given to [waitUntil] is [Promise.resolve()]. *)
Definition on_sync (tag : string) : M unit :=
  console_log "Service Worker: Background sync triggered" ;;
  if String.eqb tag "background-sync" then ret tt else ret tt.

(** The options object of lines 135-143. *)
Record NotificationOptions := mkNotificationOptions {
  opt_body : string;
  opt_icon : string;
  opt_badge : string;
  opt_vibrate : list Z;
  opt_data_url : string
}.

(** Calls on the notification and window objects of the platform. *)
Inductive UiCall :=
  | ShowNotification (title : string) (options : NotificationOptions)
  | CloseNotification
  | OpenWindow (u : string).

(** The [icon] and [badge] of lines 137-138. *)
Definition STAR_ICON : string :=
  "data:image/svg+xml,%3Csvg xmlns='http://www.w3.org/2000/svg' viewBox='0 0 100 100'%3E%3Ctext y='.9em' font-size='90'%3E🌟%3C/text%3E%3C/svg%3E".

(** [a || b] on a string that may be undefined: the empty string is falsy. *)
Definition js_or (a : option string) (b : string) : string :=
  match a with
  | Some (String c r) => String c r
  | Some EmptyString => b
  | None => b
  end.

(** Lines 132-148.  [payload] is [None] when [event.data] is null, and the
    result of [event.data.text()] otherwise. *)
Definition on_push (payload : option string) : World -> World * list UiCall :=
  fun w =>
    (snd (console_log "Service Worker: Push notification received" w),
     [ShowNotification "Better Yourself"
        {| opt_body := match payload with
                       | Some t => t
                       | None => "Better Yourself notification"
                       end;
           opt_icon := STAR_ICON;
           opt_badge := STAR_ICON;
           opt_vibrate := [200; 100; 200];
           opt_data_url := "./" |}]).

(** Lines 151-159.  [data] is [event.notification.data]: [None] when the
    notification carries no data, and otherwise its [url] field, which may be
    undefined.  Reading [url] off a missing [data] throws, after the
    notification has been closed. *)
Definition on_notificationclick (data : option (option string))
  : World -> Outcome unit * World * list UiCall :=
  fun w =>
    let w1 := snd (console_log "Service Worker: Notification clicked" w) in
    match data with
    | None =>
        (Rejected (TypeError "Cannot read properties of null"), w1,
         [CloseNotification])
    | Some u =>
        (Fulfilled tt, w1, [CloseNotification; OpenWindow (js_or u "./")])
    end.

End PolicyA.

(** ** Policy B: src/sw.js lines 193-414 *)

Module PolicyB.

Definition CACHE_NAME : string := "better-yourself-offline-v1.0.0".
Definition STATIC_CACHE : string := "better-yourself-static-v1".

Definition STATIC_FILES : list string :=
  ["./"; "./index.html"; "./manifest.json"].

(** [cacheName !== STATIC_CACHE] *)
Definition is_old (cacheName : string) : bool :=
  negb (String.eqb cacheName STATIC_CACHE).

Definition dq : string := String (Ascii.ascii_of_nat 34) EmptyString.
Definition nl : string := String (Ascii.ascii_of_nat 10) EmptyString.

(** Lines 306-331: the text between the backquotes. *)
Definition OFFLINE_PAGE : string :=
  String.concat nl
    [ EmptyString;
      "                    <!DOCTYPE html>";
      "                    <html>";
      "                    <head>";
      "                        <title>Better Yourself - Offline</title>";
      "                        <meta name=" ++ dq ++ "viewport" ++ dq ++ " content=" ++ dq ++ "width=device-width, initial-scale=1.0" ++ dq ++ ">";
      "                        <style>";
      "                            body { font-family: Arial, sans-serif; text-align: center; padding: 50px; background: #f5f5f5; }";
      "                            .container { max-width: 400px; margin: 0 auto; padding: 40px; background: white; border-radius: 20px; box-shadow: 0 10px 30px rgba(0,0,0,0.1); }";
      "                            .icon { font-size: 4rem; margin-bottom: 20px; }";
      "                            h1 { color: #333; margin-bottom: 20px; }";
      "                            p { color: #666; line-height: 1.6; }";
      "                            button { background: linear-gradient(135deg, #667eea, #764ba2); color: white; border: none; padding: 12px 24px; border-radius: 8px; cursor: pointer; margin-top: 20px; }";
      "                        </style>";
      "                    </head>";
      "                    <body>";
      "                        <div class=" ++ dq ++ "container" ++ dq ++ ">";
      "                            <div class=" ++ dq ++ "icon" ++ dq ++ ">🌟</div>";
      "                            <h1>Better Yourself</h1>";
      "                            <p>You're currently offline, but your productivity app is ready to work!</p>";
      "                            <p>All your data is stored locally and will sync when you're back online.</p>";
      "                            <button onclick=" ++ dq ++ "window.location.reload()" ++ dq ++ ">Launch App</button>";
      "                        </div>";
      "                    </body>";
      "                    </html>";
      "                  " ].

Section Handlers.

Variable P : Platform.

(** Lines 210-223: the promise of the first install listener. *)
Definition install_promise : M unit :=
  catch
    (cache <- caches_open P STATIC_CACHE ;;
     (console_log "Service Worker: Caching all files for offline use" ;;
      cache_addAll P cache STATIC_FILES) ;;
     console_log "Service Worker: Ready for offline use" ;;
     skipWaiting)
    (fun error => console_error "Service Worker: Installation failed").

(** Lines 397-406: the promise of the second install listener; no
    [catch] follows it. *)
Definition ensure_promise : M unit :=
  cache <- caches_open P STATIC_CACHE ;;
  cache_addAll P cache STATIC_FILES ;;
  console_log "Service Worker: App ready for offline use" ;;
  skipWaiting.

(** The install event: both listeners (lines 207-224 and 395-407) hand a
    promise to [event.waitUntil]. *)
Definition on_install : M unit :=
  wait_until_both
    (console_log "Service Worker: Installing for offline use..." ;;
     install_promise)
    ensure_promise.

(** Lines 227-248. *)
Definition on_activate : M unit :=
  console_log "Service Worker: Activating offline mode..." ;;
  cacheNames <- caches_keys ;;
  promise_all
    (fun cacheName =>
       if is_old cacheName
       then (console_log "Service Worker: Deleting old cache" ;;
             b <- caches_delete cacheName ;; ret (Some b))
       else ret None)
    cacheNames ;;
  console_log "Service Worker: Offline mode activated" ;;
  clients_claim.

(** Lines 284-291; as in Policy A the promise of [cache.put] is dropped. *)
Definition cache_new_content (req : Request) (responseToCache : Response) : M unit :=
  detach
    (catch
       (cache <- caches_open P STATIC_CACHE ;;
        console_log "Service Worker: Caching new content" ;;
        detach (cache_put P cache (url req) responseToCache))
       (fun error =>
          console_error "Service Worker: Failed to cache new content")).

(** Lines 264-340: the callback chained on [caches.match(event.request)]. *)
Definition after_match (req : Request) (cachedResponse : option Response)
  : M (option Response) :=
  match cachedResponse with
  | Some r =>
      console_log "Service Worker: Serving from cache (offline)" ;;
      ret (Some r)
  | None =>
      catch
        (networkResponse <- fetch P (url req) ;;
         if not_cacheable networkResponse
         then ret (Some networkResponse)
         else (responseToCache <- response_clone networkResponse ;;
               cache_new_content req responseToCache ;;
               ret (Some networkResponse)))
        (fun error =>
           console_log "Service Worker: Network failed, app is fully offline" ;;
           if String.eqb (destination req) "document"
           then (response <- caches_match (resolve_url P "./index.html") ;;
                 match response with
                 | Some r => ret (Some r)
                 | None =>
                     r <- new_response OFFLINE_PAGE [("Content-Type", "text/html")] ;;
                     ret (Some r)
                 end)
           else throw error)
  end.

(** Lines 410-414: the second fetch listener. *)
Definition log_offline_mode (req : Request) : M unit :=
  if includes (url req) (location_origin P)
  then console_log "Service Worker: App running in offline mode"
  else ret tt.

(** The fetch event.  The first listener (lines 251-342) checks its guard
    and calls [caches.match]; the second listener runs before that
    lookup's callback does. *)
Definition on_fetch (req : Request) : World -> Interception * World :=
  fun w =>
    if negb (String.eqb (method req) "GET")
    then (PassThrough, snd (log_offline_mode req w))
    else if negb (startsWith (url req) (location_origin P))
    then (PassThrough, snd (log_offline_mode req w))
    else match caches_match (url req) w with
         | (looked_up, w1) =>
             match bind (fun w' => (looked_up, w')) (after_match req)
                     (snd (log_offline_mode req w1)) with
             | (o, w2) => (RespondWith o, w2)
             end
         end.

(** Lines 367-392. *)
Definition on_message (ev : MessageEvent) : M unit :=
  console_log "Service Worker: Message received" ;;
  (if data_type_is ev "SKIP_WAITING" then skipWaiting else ret tt) ;;
  (if data_type_is ev "GET_VERSION"
   then post_message ev [("version", JsString CACHE_NAME);
                         ("offline", JsBool true);
                         ("mode", JsString "offline-first")]
   else ret tt) ;;
  (if data_type_is ev "CACHE_STATUS"
   then detach
          (response <- caches_match (resolve_url P "./index.html") ;;
           post_message ev [("cached", JsBool (bool_decide (is_Some response)));
                            ("ready", JsBool true);
                            ("mode", JsString "offline")])
   else ret tt).

End Handlers.

(** Lines 357-364: the executor of [new Promise] runs at once. *)
Definition syncOfflineData : M unit :=
  console_log "Service Worker: Syncing offline data..." ;;
  ret tt.

(** Lines 345-354. *)
Definition on_sync (tag : string) : M unit :=
  console_log "Service Worker: Connection restored, syncing data" ;;
  if String.eqb tag "background-sync" then syncOfflineData else ret tt.

End PolicyB.

(** ** Reading a trace *)

Definition is_fetch (e : Effect) : bool :=
  match e with NetFetch _ => true | _ => false end.

Definition is_lookup (e : Effect) : bool :=
  match e with CachesMatch _ => true | _ => false end.

Definition is_write (e : Effect) : bool :=
  match e with CachePut _ _ _ | CacheAddAll _ _ => true | _ => false end.

Definition is_error_log (e : Effect) : bool :=
  match e with ConsoleError _ => true | _ => false end.

Definition is_reply (e : Effect) : bool :=
  match e with PostMessage _ _ => true | _ => false end.

Definition count (f : Effect -> bool) (t : list Effect) : nat :=
  length (List.filter f t).

Definition network_calls : list Effect -> nat := count is_fetch.
Definition store_lookups : list Effect -> nat := count is_lookup.
Definition store_writes : list Effect -> nat := count is_write.
Definition error_logs : list Effect -> nat := count is_error_log.
Definition replies : list Effect -> nat := count is_reply.

(** The body of [r] can still be read in [w]. *)
Definition readable (w : World) (r : Response) : Prop :=
  resp_stream r ∉ consumed w.

(** Streams are handed out in order, so the ones read so far are old. *)
Definition streams_ok (w : World) : Prop :=
  ∀ s, s ∈ consumed w → (s < next_stream w)%nat.

(** The identifiers each policy keeps at activation. *)
Definition is_current_A (name : string) : bool := negb (PolicyA.is_old name).
Definition is_current_B (name : string) : bool := negb (PolicyB.is_old name).

(** ** Example inputs *)

Module Demo.

Definition page (b : string) : Snapshot :=
  {| status := 200; rtype := TBasic; headers := []; body := b |}.

(** A server that has the three manifest files and one script. *)
Definition online (u : string) : option Snapshot :=
  if String.eqb u "https://a.com/app/" then Some (page "root")
  else if String.eqb u "https://a.com/app/index.html" then Some (page "index")
  else if String.eqb u "https://a.com/app/manifest.json" then Some (page "manifest")
  else if String.eqb u "https://a.com/app/x.js" then Some (page "js")
  else None.

Definition platform (net : string -> option Snapshot) : Platform :=
  {| location_origin := "https://a.com";
     base_url := "https://a.com/app/";
     network := net;
     open_ok := fun _ => true;
     put_ok := fun _ _ => true |}.

Definition Online : Platform := platform online.

(** No network at all. *)
Definition Offline : Platform := platform (fun _ => None).

(** The server lost [index.html]. *)
Definition NoIndex : Platform :=
  platform (fun u => if String.eqb u "https://a.com/app/index.html"
                     then None else online u).

(** The store refuses every write. *)
Definition QuotaFull : Platform :=
  {| location_origin := "https://a.com";
     base_url := "https://a.com/app/";
     network := online;
     open_ok := fun _ => true;
     put_ok := fun _ _ => false |}.

Definition world (cs : CacheStorage) : World :=
  {| caches := cs; consumed := []; next_stream := 0; trace := [] |}.

Definition empty : World := world [].

Definition script : Request :=
  {| method := "GET"; url := "https://a.com/app/x.js"; destination := "script" |}.

Definition navigation : Request :=
  {| method := "GET"; url := "https://a.com/app/tasks"; destination := "document" |}.

(** Same host, other port: another origin. *)
Definition other_port : Request :=
  {| method := "GET"; url := "https://a.com:8443/api/items"; destination := "" |}.

Definition GET_VERSION : MessageEvent :=
  {| data := Some [("type", JsString "GET_VERSION")]; ports := [7%nat] |}.

Definition CACHE_STATUS : MessageEvent :=
  {| data := Some [("type", JsString "CACHE_STATUS")]; ports := [7%nat] |}.

(** A store where only a superseded generation holds the script. *)
Definition stale_only : World :=
  world [("better-yourself-static-v0", {[ "https://a.com/app/x.js" := page "old js" ]});
         ("better-yourself-static-v1", ∅)].

(** A store where only the dynamic generation holds the script. *)
Definition dynamic_only : World :=
  world [("better-yourself-static-v1", ∅);
         ("better-yourself-dynamic-v1", {[ "https://a.com/app/x.js" := page "js" ]})].

End Demo.

(** ** Vocabulary of the statements *)

Local Open Scope list_scope.

(** Unfolds the promise combinators and the platform calls in the goal. *)
Ltac run :=
  unfold bind, catch, detach, ret, throw, emit, get_caches, set_caches,
    fresh_response, mark_consumed, is_consumed, console_log, console_error,
    skipWaiting, clients_claim, new_response, post_message in *;
  simpl in *.

(** The listener answered [req] with the stored entry [d]: the response it
    hands over carries [d], the platform calls it made include no network
    fetch and no store write, and the store is as before. *)
Definition served_from_store (on_fetch : Request -> World -> Interception * World)
    (req : Request) (w : World) (d : Snapshot) : Prop :=
  ∃ r w' (added : list Effect),
    on_fetch req w = (RespondWith (Fulfilled (Some r)), w')
    /\ resp_data r = d
    /\ trace w' = trace w ++ added
    /\ network_calls added = 0%nat /\ store_writes added = 0%nat
    /\ caches w' = caches w.

(** Every generation other than [name] lacks [u]. *)
Definition absent_elsewhere (name u : string) (cs : CacheStorage) : bool :=
  forallb (fun p => String.eqb (fst p) name || bool_decide (snd p !! u = None)) cs.

(** What one policy's activation listener does with one generation name. *)
Definition purge_one (old : string -> bool) (msg : string) (cacheName : string)
  : M (option bool) :=
  if old cacheName
  then (console_log msg ;; b <- caches_delete cacheName ;; ret (Some b))
  else ret None.

(** The platform calls of a purge over the names [ns]. *)
Definition purge_calls (old : string -> bool) (msg : string) (ns : list string)
  : list Effect :=
  flat_map (fun n => if old n then [ConsoleLog msg; CachesDelete n] else []) ns.

(** The shape both activation listeners share. *)
Definition activation (old : string -> bool) (m1 m2 m3 : string) : M unit :=
  console_log m1 ;;
  cacheNames <- caches_keys ;;
  promise_all (purge_one old m2) cacheNames ;;
  console_log m3 ;;
  clients_claim.

(** The generation names that a trace asks the store to delete. *)
Fixpoint deleted_names (t : list Effect) : list string :=
  match t with
  | [] => []
  | CachesDelete n :: t' => n :: deleted_names t'
  | _ :: t' => deleted_names t'
  end.

(** The generation is one of the identifiers in [current]. *)
Definition kept (current : list string) (name : string) : bool :=
  bool_decide (name ∈ current).

(** Membership in a list written out. *)
Ltac list_mem := rewrite ?elem_of_cons, ?elem_of_nil; tauto.

(** Activation from [w]: it fulfils, asks the store to delete exactly the
    generations whose name is not in [current], leaves the others as they
    were; run once more, it fulfils again, asks for no deletion and leaves the
    store unchanged. *)
Definition purges_to_current (on_activate : M unit) (current : list string)
    (w : World) : Prop :=
  ∃ w1 w2 (t1 t2 : list Effect),
    on_activate w = (Fulfilled tt, w1)
    /\ trace w1 = trace w ++ t1
    /\ deleted_names t1
       = List.filter (fun n => negb (kept current n)) (List.map fst (caches w))
    /\ caches w1 = List.filter (fun p => kept current (fst p)) (caches w)
    /\ (∀ n, In n (List.map fst (caches w1)) → n ∈ current)
    /\ on_activate w1 = (Fulfilled tt, w2)
    /\ trace w2 = trace w1 ++ t2
    /\ deleted_names t2 = []
    /\ caches w2 = caches w1.

(** The shape both policies share for the write of the clone. *)
Definition store_copy (P : Platform) (name m_ok m_err : string)
    (req : Request) (responseToCache : Response) : M unit :=
  detach
    (catch
       (cache <- caches_open P name ;;
        console_log m_ok ;;
        detach (cache_put P cache (url req) responseToCache))
       (fun error => console_error m_err)).

(** What the write chain leaves behind, by what the store does. *)
Definition after_store_copy (P : Platform) (name m_ok m_err : string)
    (req : Request) (c : Response) (w : World) : World :=
  if open_ok P name
  then if put_ok P name (url req)
       then {| caches := storage_put name (url req) (resp_data c)
                           (storage_open name (caches w));
               consumed := resp_stream c :: consumed w;
               next_stream := next_stream w;
               trace := trace w ++ [CachesOpen name; ConsoleLog m_ok;
                                    CachePut name (url req) (resp_stream c)] |}
       else {| caches := storage_open name (caches w);
               consumed := consumed w;
               next_stream := next_stream w;
               trace := trace w ++ [CachesOpen name; ConsoleLog m_ok;
                                    CachePut name (url req) (resp_stream c)] |}
  else {| caches := caches w;
          consumed := consumed w;
          next_stream := next_stream w;
          trace := trace w ++ [CachesOpen name; ConsoleError m_err] |}.

(** The network branch of a fetch listener on a cache miss with a status 200
    basic response: the caller gets the original response [r], a clone [c] of
    it is made before anything reads either body, and the write chain runs
    on the clone. *)
Definition captured (on_fetch : Request -> World -> Interception * World)
    (P : Platform) (name : string) (req : Request) (w : World) (d : Snapshot)
  : Prop :=
  ∃ r c w' (before after : list Effect),
    on_fetch req w = (RespondWith (Fulfilled (Some r)), w')
    /\ resp_data r = d /\ resp_data c = d
    /\ resp_stream c ≠ resp_stream r
    /\ readable w' r
    /\ trace w' = trace w ++ before ++ [BodyClone (resp_stream r) (resp_stream c)] ++ after
    /\ store_writes before = 0%nat
    /\ network_calls (before ++ after) = 1%nat
    /\ (open_ok P name = true ->
        store_writes after = 1%nat
        /\ In (CachePut name (url req) (resp_stream c)) after)
    /\ (open_ok P name = false ->
        store_writes after = 0%nat /\ error_logs after = 1%nat
        /\ caches w' = caches w)
    /\ (open_ok P name = true -> put_ok P name (url req) = true ->
        cache_entry name (url req) (caches w') = Some d)
    /\ (open_ok P name = true -> put_ok P name (url req) = false ->
        caches w' = storage_open name (caches w) /\ error_logs after = 0%nat).

Module CrossOrigin.

(** The worker is served from [https://a.com]; the API lives on another
    port of the same host and answers cross-origin requests. *)
Definition api (u : string) : option Snapshot :=
  if String.eqb u "https://a.com:8443/api/items"
  then Some {| status := 200; rtype := TCors;
               headers := [("Content-Type", "application/json")];
               body := "[]" |}
  else Demo.online u.

Definition platform : Platform := Demo.platform api.

End CrossOrigin.

(** The manifest entry [u] can be fetched and stored into [name]. *)
Definition storable (P : Platform) (name u : string) : bool :=
  match network P u with
  | Some d => response_ok d && put_ok P name u
  | None => false
  end.

(** The manifest of Policy B has an entry that cannot be fetched and stored
    into the static generation, or that generation cannot be opened. *)
Definition manifest_fails_B (P : Platform) : bool :=
  negb (open_ok P PolicyB.STATIC_CACHE)
  || existsb (fun u => negb (storable P PolicyB.STATIC_CACHE u))
       (List.map (resolve_url P) PolicyB.STATIC_FILES).

Definition manifest_fails_A (P : Platform) : bool :=
  negb (open_ok P PolicyA.STATIC_CACHE)
  || existsb (fun u => negb (storable P PolicyA.STATIC_CACHE u))
       (List.map (resolve_url P) PolicyA.STATIC_FILES).

(** What a failed install leaves in the store: the static generation, opened
    if the store allowed it, and nothing written. *)
Definition store_after_failed_install (P : Platform) (name : string)
    (cs : CacheStorage) : CacheStorage :=
  if open_ok P name then storage_open name cs else cs.

Definition is_clone (e : Effect) : bool :=
  match e with BodyClone _ _ => true | _ => false end.

(** The listener handed the caller the network response [d] untouched: one
    fetch, no clone, no store write, the store and the read streams as
    before. *)
Definition passed_through (on_fetch : Request -> World -> Interception * World)
    (req : Request) (w : World) (d : Snapshot) : Prop :=
  ∃ r w' (added : list Effect),
    on_fetch req w = (RespondWith (Fulfilled (Some r)), w')
    /\ resp_data r = d
    /\ trace w' = trace w ++ added
    /\ network_calls added = 1%nat
    /\ store_writes added = 0%nat
    /\ count is_clone added = 0%nat
    /\ caches w' = caches w
    /\ consumed w' = consumed w.

(** The listener let the failure of the fetch reach the caller: the promise
    rejects with that failure, after one store lookup and no write. *)
Definition rethrown (on_fetch : Request -> World -> Interception * World)
    (req : Request) (w : World) : Prop :=
  ∃ w' (added : list Effect),
    on_fetch req w = (RespondWith (Rejected (NetworkError (url req))), w')
    /\ trace w' = trace w ++ added
    /\ store_lookups added = 1%nat
    /\ store_writes added = 0%nat
    /\ caches w' = caches w.

(** The store [cs'] differs from [cs] at most by the generation [name]
    having been opened and the URL [u] written into it. *)
Definition wrote_at_most (name u : string) (cs cs' : CacheStorage) : Prop :=
  cs' = cs
  \/ cs' = storage_open name cs
  \/ ∃ d, cs' = storage_put name u d (storage_open name cs).

(** Every generation called [name] holds [d] for [u]. *)
Definition holds_at (name u : string) (d : Snapshot) (cs : CacheStorage) : bool :=
  forallb (fun p => negb (String.eqb (fst p) name)
                    || bool_decide (snd p !! u = Some d)) cs.

Module Scenario.

Definition not_found : Snapshot :=
  {| status := 404; rtype := TBasic; headers := []; body := "Not Found" |}.

(** A server that answers 404 for what it does not have. *)
Definition Missing : Platform :=
  Demo.platform (fun u => match Demo.online u with
                          | Some d => Some d
                          | None => Some not_found
                          end).

Definition gone : Request :=
  {| method := "GET"; url := "https://a.com/app/gone.js"; destination := "script" |}.

(** A store whose static generation holds the root document. *)
Definition root_cached : World :=
  Demo.world [("better-yourself-static-v1",
               {[ "https://a.com/app/index.html" := Demo.page "index" ]})].

(** A store with two stale generations besides the current ones. *)
Definition cluttered : World :=
  Demo.world [("better-yourself-static-v0", {[ "https://a.com/app/x.js" := Demo.page "old js" ]});
              ("better-yourself-static-v1", ∅);
              ("third-party", ∅);
              ("better-yourself-dynamic-v1", ∅)].

Definition SKIP_WAITING : MessageEvent :=
  {| data := Some [("type", JsString "SKIP_WAITING")]; ports := [] |}.

Definition PING : MessageEvent :=
  {| data := Some [("type", JsString "PING")]; ports := [7%nat] |}.

Definition GET_VERSION_no_port : MessageEvent :=
  {| data := Some [("type", JsString "GET_VERSION")]; ports := [] |}.

Definition CACHE_STATUS_no_port : MessageEvent :=
  {| data := Some [("type", JsString "CACHE_STATUS")]; ports := [] |}.

End Scenario.

(** Case analysis on every branch of a listener, keeping the store
    operations folded. *)
Ltac branches :=
  unfold bind, catch, detach, ret, throw, emit, get_caches, set_caches,
    fresh_response, mark_consumed, is_consumed, console_log, console_error,
    new_response;
  cbn -[storage_lookup storage_open storage_put not_cacheable String.eqb
        startsWith includes PolicyB.OFFLINE_PAGE];
  repeat (case_match;
          cbn -[storage_lookup storage_open storage_put not_cacheable String.eqb
                startsWith includes PolicyB.OFFLINE_PAGE] in *;
          simplify_eq).

(** The payload names none of the commands: it is falsy, or its [type] is
    missing, not a string, or a string other than the three commands. *)
Definition no_command (ev : MessageEvent) : Prop :=
  ∀ o t, data ev = Some o -> get_field o "type" = Some (JsString t) ->
         t ≠ "SKIP_WAITING" /\ t ≠ "GET_VERSION" /\ t ≠ "CACHE_STATUS".

(** ** Lemmas on strings and on the store *)

Lemma prefix_until_slash (s : string) : String.prefix (until_slash s) s = true.
Proof.
  induction s as [|c r IH]; simpl; [reflexivity|].
  destruct (Ascii.eqb c _); simpl; [reflexivity|].
  destruct (Ascii.ascii_dec c c); [exact IH | congruence].
Qed.

Lemma prefix_take_until (n : nat) (s : string) :
  String.prefix (take_chars n s ++ until_slash (drop_chars n s))%string s = true.
Proof.
  revert s; induction n as [|n IH]; intros s.
  - destruct s; simpl; [reflexivity|]. apply (prefix_until_slash (String a s)).
  - destruct s as [|c r]; simpl; [reflexivity|].
    destruct (Ascii.ascii_dec c c); [apply IH | congruence].
Qed.

(** A request to the worker's own origin passes the [startsWith] guard. *)
Lemma same_origin_startsWith (o : string) (req : Request) :
  same_origin o req -> startsWith (url req) o = true.
Proof.
  unfold same_origin, url_origin, startsWith.
  destruct (String.index 0 "://" (url req)) as [i|]; [|discriminate].
  intros [= <-]. apply prefix_take_until.
Qed.

Lemma count_app (f : Effect -> bool) (t1 t2 : list Effect) :
  count f (t1 ++ t2) = (count f t1 + count f t2)%nat.
Proof. unfold count. by rewrite List.filter_app, length_app. Qed.

Lemma string_eqb_true (a b : string) : a = b -> String.eqb a b = true.
Proof. intros ->. apply String.eqb_refl. Qed.

(** The lookup of [caches.match] when the store holds the URL. *)
Lemma caches_match_hit (u : string) (w : World) (d : Snapshot) :
  storage_lookup (caches w) u = Some d ->
  caches_match u w =
    (Fulfilled (Some {| resp_data := d; resp_stream := next_stream w |}),
     {| caches := caches w; consumed := consumed w;
        next_stream := S (next_stream w);
        trace := trace w ++ [CachesMatch u] |}).
Proof. intros H. unfold caches_match. run. by rewrite H. Qed.

Lemma caches_match_miss (u : string) (w : World) :
  storage_lookup (caches w) u = None ->
  caches_match u w =
    (Fulfilled None,
     {| caches := caches w; consumed := consumed w;
        next_stream := next_stream w;
        trace := trace w ++ [CachesMatch u] |}).
Proof. intros H. unfold caches_match. run. by rewrite H. Qed.

(** The guard of both fetch listeners lets a GET to the own origin in. *)
Lemma guard_passes (P : Platform) (req : Request) :
  method req = "GET" -> same_origin (location_origin P) req ->
  negb (String.eqb (method req) "GET") = false
  /\ negb (startsWith (url req) (location_origin P)) = false.
Proof.
  intros Hm Ho. split.
  - by rewrite (string_eqb_true _ _ Hm).
  - by rewrite (same_origin_startsWith _ _ Ho).
Qed.

(** The second fetch listener of Policy B only writes to the console. *)
Lemma log_offline_mode_effect (P : Platform) (req : Request) (w : World) :
  ∃ l, snd (PolicyB.log_offline_mode P req w) =
         {| caches := caches w; consumed := consumed w;
            next_stream := next_stream w; trace := trace w ++ l |}
       /\ (l = [] \/ l = [ConsoleLog "Service Worker: App running in offline mode"]).
Proof.
  unfold PolicyB.log_offline_mode.
  destruct (includes _ _); run.
  - eexists; split; [reflexivity | by right].
  - exists []. rewrite app_nil_r. destruct w; simpl. split; [reflexivity | by left].
Qed.

(** ** Cache hits *)

Lemma served_on_hit (P : Platform) (req : Request) (w : World) (d : Snapshot) :
  method req = "GET" ->
  same_origin (location_origin P) req ->
  storage_lookup (caches w) (url req) = Some d ->
  served_from_store (PolicyA.on_fetch P) req w d
  /\ served_from_store (PolicyB.on_fetch P) req w d.
Proof.
  intros Hm Ho Hd. destruct (guard_passes P req Hm Ho) as [G1 G2].
  unfold served_from_store. split.
  - unfold PolicyA.on_fetch. rewrite G1, G2.
    unfold PolicyA.respond, bind at 1. rewrite (caches_match_hit _ _ _ Hd). run.
    do 3 eexists. split; [reflexivity|]. simpl.
    rewrite <- app_assoc. simpl. repeat split; reflexivity.
  - unfold PolicyB.on_fetch. rewrite G1, G2, (caches_match_hit _ _ _ Hd).
    destruct (log_offline_mode_effect P req
                {| caches := caches w; consumed := consumed w;
                   next_stream := S (next_stream w);
                   trace := trace w ++ [CachesMatch (url req)] |})
      as (l & -> & Hl).
    unfold PolicyB.after_match. run.
    do 3 eexists. split; [reflexivity|]. simpl.
    rewrite <- !app_assoc. simpl.
    repeat split; try reflexivity; destruct Hl as [-> | ->]; reflexivity.
Qed.

(** C3. For every intercepted GET same-origin request that the store holds,
    both policies answer with the stored entry, and the platform calls made
    for the request include no network fetch (the count of fetches is zero)
    and no store write. *)
Theorem cache_hit_served_without_network
    (P : Platform) (req : Request) (w : World) (d : Snapshot) :
  method req = "GET" ->
  same_origin (location_origin P) req ->
  storage_lookup (caches w) (url req) = Some d ->
  served_from_store (PolicyA.on_fetch P) req w d
  /\ served_from_store (PolicyB.on_fetch P) req w d.
Proof. apply served_on_hit. Qed.

Lemma cache_hit_served_without_network_witness :
  served_from_store (PolicyA.on_fetch Demo.Offline) Demo.script
    Demo.dynamic_only (Demo.page "js")
  /\ served_from_store (PolicyB.on_fetch Demo.Offline) Demo.script
       Demo.dynamic_only (Demo.page "js").
Proof.
  apply (cache_hit_served_without_network Demo.Offline Demo.script
           Demo.dynamic_only (Demo.page "js")); reflexivity.
Defined.

(** The lookup goes through the generations in order, so an entry held by
    one generation only is the one found. *)
Lemma storage_lookup_only (name u : string) (cs : CacheStorage) (d : Snapshot) :
  cache_entry name u cs = Some d ->
  absent_elsewhere name u cs = true ->
  storage_lookup cs u = Some d.
Proof.
  unfold cache_entry, absent_elsewhere.
  induction cs as [|[n c] cs IH]; simpl; [discriminate|].
  destruct (String.eqb n name); simpl.
  - intros -> _. reflexivity.
  - intros Hd Ha. apply andb_true_iff in Ha as [Hc Ha].
    apply bool_decide_eq_true in Hc. rewrite Hc. by apply IH.
Qed.

(** C10. The lookup of the fetch router is not scoped to the current
    generation: when a generation that the policy does not count as current
    (one that activation has not purged yet, or under Policy B the dynamic
    cache) is the only one holding the request, its entry is what the caller
    gets, with no network fetch. *)
Theorem lookup_spans_all_generations
    (P : Platform) (req : Request) (w : World) (name : string) (d : Snapshot) :
  method req = "GET" ->
  same_origin (location_origin P) req ->
  cache_entry name (url req) (caches w) = Some d ->
  absent_elsewhere name (url req) (caches w) = true ->
  (is_current_A name = false -> served_from_store (PolicyA.on_fetch P) req w d)
  /\ (is_current_B name = false -> served_from_store (PolicyB.on_fetch P) req w d).
Proof.
  intros Hm Ho Hd Ha.
  pose proof (storage_lookup_only _ _ _ _ Hd Ha) as Hl.
  destruct (served_on_hit P req w d Hm Ho Hl). by split.
Qed.

Lemma lookup_spans_all_generations_witness :
  served_from_store (PolicyA.on_fetch Demo.Online) Demo.script
    Demo.stale_only (Demo.page "old js")
  /\ served_from_store (PolicyB.on_fetch Demo.Online) Demo.script
       Demo.stale_only (Demo.page "old js").
Proof.
  destruct (lookup_spans_all_generations Demo.Online Demo.script Demo.stale_only
              "better-yourself-static-v0" (Demo.page "old js")
              eq_refl eq_refl eq_refl eq_refl) as [HA HB].
  split; [apply HA | apply HB]; reflexivity.
Defined.

(** Under Policy B the dynamic generation of Policy A is such a generation. *)
Example dynamic_generation_answers_under_B :
  is_current_B PolicyA.DYNAMIC_CACHE = false
  /\ fst (PolicyB.on_fetch Demo.Offline Demo.script Demo.dynamic_only)
     = RespondWith (Fulfilled (Some {| resp_data := Demo.page "js"; resp_stream := 0 |})).
Proof. split; reflexivity. Qed.

(** ** Activation *)

Lemma filter_after_delete (old : string -> bool) (n : string) (ns : list string)
    (cs : CacheStorage) :
  old n = true ->
  List.filter (fun p => negb (old (fst p) && existsb (String.eqb (fst p)) ns))
    (storage_delete n cs)
  = List.filter
      (fun p => negb (old (fst p) && existsb (String.eqb (fst p)) (n :: ns))) cs.
Proof.
  intros Hold. unfold storage_delete.
  induction cs as [|[m c] cs IH]; simpl; [reflexivity|].
  destruct (String.eqb m n) eqn:E; simpl.
  - apply String.eqb_eq in E. subst m. rewrite Hold. simpl. exact IH.
  - destruct (negb _); [f_equal|]; exact IH.
Qed.

Lemma purge_all (old : string -> bool) (msg : string) (ns : list string) (w : World) :
  ∃ bs,
    promise_all (purge_one old msg) ns w =
      (Fulfilled bs,
       {| caches :=
            List.filter
              (fun p => negb (old (fst p) && existsb (String.eqb (fst p)) ns))
              (caches w);
          consumed := consumed w;
          next_stream := next_stream w;
          trace := trace w ++ purge_calls old msg ns |}).
Proof.
  revert w. induction ns as [|n ns IH]; intros w.
  - exists []. simpl. unfold ret. f_equal. destruct w as [cs ? ? t]; simpl.
    f_equal; [| by rewrite app_nil_r].
    induction cs as [|p cs IHcs]; simpl; [reflexivity|].
    rewrite andb_false_r. simpl. by f_equal.
  - simpl. unfold purge_one at 1. destruct (old n) eqn:Hold.
    + unfold caches_delete. run.
      edestruct IH as [bs ->]. eexists. simpl.
      rewrite (filter_after_delete old n ns _ Hold).
      f_equal. f_equal. by rewrite <- !app_assoc.
    + run. edestruct IH as [bs ->]. eexists. f_equal. f_equal.
      apply List.filter_ext. intros [m c]. simpl.
      destruct (String.eqb m n) eqn:E; [|reflexivity].
      apply String.eqb_eq in E. subst m. by rewrite Hold.
Qed.

Lemma existsb_own_name (p : string * gmap string Snapshot) (cs : CacheStorage) :
  In p cs -> existsb (String.eqb (fst p)) (List.map fst cs) = true.
Proof.
  intros Hin. apply existsb_exists. exists (fst p). split.
  - by apply in_map.
  - apply String.eqb_refl.
Qed.

Lemma names_after_filter (keep : string -> bool) (cs : CacheStorage) :
  forallb keep (List.map fst (List.filter (fun p => keep (fst p)) cs)) = true.
Proof.
  induction cs as [|[n c] cs IH]; simpl; [reflexivity|].
  destruct (keep n) eqn:E; simpl; [rewrite E|]; exact IH.
Qed.

Lemma filter_twice (keep : string -> bool) (cs : CacheStorage) :
  List.filter (fun p => keep (fst p)) (List.filter (fun p => keep (fst p)) cs)
  = List.filter (fun p => keep (fst p)) cs.
Proof.
  induction cs as [|[n c] cs IH]; simpl; [reflexivity|].
  destruct (keep n) eqn:E; simpl; [rewrite E; f_equal|]; exact IH.
Qed.

Lemma activation_A :
  PolicyA.on_activate =
    activation PolicyA.is_old "Service Worker: Activating..."
      "Service Worker: Deleting old cache" "Service Worker: Activation complete".
Proof. reflexivity. Qed.

Lemma activation_B :
  PolicyB.on_activate =
    activation PolicyB.is_old "Service Worker: Activating offline mode..."
      "Service Worker: Deleting old cache" "Service Worker: Offline mode activated".
Proof. reflexivity. Qed.

Lemma activation_run (old : string -> bool) (m1 m2 m3 : string) (w : World) :
  activation old m1 m2 m3 w =
    (Fulfilled tt,
     {| caches := List.filter (fun p => negb (old (fst p))) (caches w);
        consumed := consumed w;
        next_stream := next_stream w;
        trace := trace w
                 ++ [ConsoleLog m1; CachesKeys]
                 ++ purge_calls old m2 (List.map fst (caches w))
                 ++ [ConsoleLog m3; ClientsClaim] |}).
Proof.
  unfold activation, caches_keys. run.
  edestruct (purge_all old m2 (List.map fst (caches w))) as [bs ->].
  run. f_equal. f_equal.
  - apply List.filter_ext_in. intros p Hin.
    by rewrite (existsb_own_name p (caches w) Hin), andb_true_r.
  - by rewrite <- !app_assoc.
Qed.

Lemma deleted_names_purge (old : string -> bool) (msg : string) (ns : list string) :
  deleted_names (purge_calls old msg ns) = List.filter old ns.
Proof.
  induction ns as [|n ns IH]; simpl; [reflexivity|].
  destruct (old n); simpl; by rewrite IH.
Qed.

Lemma deleted_names_app (t1 t2 : list Effect) :
  deleted_names (t1 ++ t2) = deleted_names t1 ++ deleted_names t2.
Proof.
  induction t1 as [|e t1 IH]; simpl; [reflexivity|].
  destruct e; simpl; by rewrite ?IH.
Qed.

Lemma is_old_A (n : string) :
  PolicyA.is_old n = negb (kept [PolicyA.STATIC_CACHE; PolicyA.DYNAMIC_CACHE] n).
Proof.
  unfold PolicyA.is_old, kept.
  destruct (String.eqb_spec n PolicyA.STATIC_CACHE) as [H1|H1]; cbn [negb andb].
  { rewrite bool_decide_eq_true_2; [reflexivity | list_mem]. }
  destruct (String.eqb_spec n PolicyA.DYNAMIC_CACHE) as [H2|H2]; cbn [negb andb].
  { rewrite bool_decide_eq_true_2; [reflexivity | list_mem]. }
  rewrite bool_decide_eq_false_2; [reflexivity | list_mem].
Qed.

Lemma is_old_B (n : string) :
  PolicyB.is_old n = negb (kept [PolicyB.STATIC_CACHE] n).
Proof.
  unfold PolicyB.is_old, kept.
  destruct (String.eqb_spec n PolicyB.STATIC_CACHE) as [H1|H1]; cbn [negb andb].
  { rewrite bool_decide_eq_true_2; [reflexivity | list_mem]. }
  rewrite bool_decide_eq_false_2; [reflexivity | list_mem].
Qed.

Lemma activation_purges (old : string -> bool) (m1 m2 m3 : string)
    (current : list string) (w : World) :
  (∀ n, old n = negb (kept current n)) ->
  purges_to_current (activation old m1 m2 m3) current w.
Proof.
  intros Hold. unfold purges_to_current.
  assert (Hf : ∀ cs : CacheStorage,
             List.filter (fun p => negb (old (fst p))) cs
             = List.filter (fun p => kept current (fst p)) cs).
  { intros cs. apply List.filter_ext. intros p. by rewrite Hold, negb_involutive. }
  do 4 eexists. split; [apply activation_run|]. simpl.
  split; [reflexivity|]. split.
  { simpl. rewrite deleted_names_app, deleted_names_purge. simpl.
    rewrite app_nil_r. apply List.filter_ext. exact Hold. }
  split; [apply Hf|]. split.
  { intros n Hin. apply in_map_iff in Hin as (p & <- & Hp).
    rewrite Hf in Hp. apply filter_In in Hp as [_ Hp].
    by apply bool_decide_eq_true in Hp. }
  split; [apply activation_run|]. simpl.
  split; [reflexivity|]. split.
  { simpl. rewrite deleted_names_app, deleted_names_purge. simpl.
    rewrite app_nil_r, Hf.
    assert (Hk := names_after_filter (kept current) (caches w)).
    induction (List.map fst (List.filter (fun p => kept current (fst p)) (caches w)))
      as [|n ns IH]; simpl; [reflexivity|].
    simpl in Hk. apply andb_true_iff in Hk as [Hn Hk].
    rewrite Hold, Hn. simpl. by apply IH. }
  rewrite !Hf. apply filter_twice.
Qed.

(** C5. From every state of the generation store, activation deletes exactly
    the generations whose identifier is not a current one (static and
    dynamic under Policy A, static under Policy B), so that only current
    generations remain; a second run right after fulfils as well, deletes
    nothing and leaves the set of generations unchanged. *)
Theorem activate_purges_stale_and_is_idempotent (w : World) :
  purges_to_current PolicyA.on_activate
    [PolicyA.STATIC_CACHE; PolicyA.DYNAMIC_CACHE] w
  /\ purges_to_current PolicyB.on_activate [PolicyB.STATIC_CACHE] w.
Proof.
  rewrite activation_A, activation_B. split.
  - apply activation_purges, is_old_A.
  - apply activation_purges, is_old_B.
Qed.

(** The scenario of the specification: an old and the current generation. *)
Example activation_scenario :
  List.map fst
    (caches (snd (PolicyB.on_activate
                    (Demo.world [("v-old", ∅); (PolicyB.STATIC_CACHE, ∅)]))))
  = [PolicyB.STATIC_CACHE].
Proof. reflexivity. Qed.

(** ** Network failure on a navigation request *)

Lemma fetch_fails (P : Platform) (u : string) (w : World) :
  network P u = None ->
  fetch P u w =
    (Rejected (NetworkError u),
     {| caches := caches w; consumed := consumed w;
        next_stream := next_stream w; trace := trace w ++ [NetFetch u] |}).
Proof. intros H. unfold fetch. run. by rewrite H. Qed.

(** C2. Under Policy B, for every intercepted GET same-origin navigation
    request that the store lacks, whose network fetch fails, and with the
    root document [./index.html] absent from the store as well, the router
    answers with the synthesized offline document, content type text/html,
    and no rejection reaches the caller. *)
Theorem offline_page_when_root_absent_B (P : Platform) (req : Request) (w : World) :
  method req = "GET" ->
  same_origin (location_origin P) req ->
  destination req = "document" ->
  storage_lookup (caches w) (url req) = None ->
  network P (url req) = None ->
  storage_lookup (caches w) (resolve_url P "./index.html") = None ->
  ∃ r w',
    PolicyB.on_fetch P req w = (RespondWith (Fulfilled (Some r)), w')
    /\ body (resp_data r) = PolicyB.OFFLINE_PAGE
    /\ headers (resp_data r) = [("Content-Type", "text/html")]
    /\ caches w' = caches w.
Proof.
  intros Hm Ho Hdoc Hmiss Hnet Hroot.
  destruct (guard_passes P req Hm Ho) as [G1 G2].
  unfold PolicyB.on_fetch. rewrite G1, G2, (caches_match_miss _ _ Hmiss).
  destruct (log_offline_mode_effect P req
              {| caches := caches w; consumed := consumed w;
                 next_stream := next_stream w;
                 trace := trace w ++ [CachesMatch (url req)] |})
    as (l & -> & _).
  unfold PolicyB.after_match, bind at 1, catch, bind at 1.
  rewrite fetch_fails by exact Hnet.
  rewrite (string_eqb_true _ _ Hdoc).
  unfold bind at 1, console_log, emit at 1. cbn iota beta.
  unfold bind at 1. rewrite caches_match_miss by exact Hroot.
  run. do 2 eexists. repeat split; reflexivity.
Qed.

Lemma offline_page_when_root_absent_B_witness :
  ∃ r w',
    PolicyB.on_fetch Demo.Offline Demo.navigation Demo.empty
    = (RespondWith (Fulfilled (Some r)), w')
    /\ body (resp_data r) = PolicyB.OFFLINE_PAGE
    /\ headers (resp_data r) = [("Content-Type", "text/html")]
    /\ caches w' = caches Demo.empty.
Proof.
  apply (offline_page_when_root_absent_B Demo.Offline Demo.navigation Demo.empty);
    reflexivity.
Defined.

(** The claim C6 says that Policy A, with the root document absent too, lets
    the network failure reach the caller.  Here is such a request: the
    promise given to [respondWith] fulfils with [undefined]; it does not
    reject with the failure of the fetch. *)
Lemma root_absent_fulfils_undefined_A :
  method Demo.navigation = "GET"
  /\ same_origin (location_origin Demo.Offline) Demo.navigation
  /\ destination Demo.navigation = "document"
  /\ storage_lookup (caches Demo.empty) (url Demo.navigation) = None
  /\ network Demo.Offline (url Demo.navigation) = None
  /\ storage_lookup (caches Demo.empty) (resolve_url Demo.Offline "./index.html") = None
  /\ fst (PolicyA.on_fetch Demo.Offline Demo.navigation Demo.empty)
     = RespondWith (Fulfilled None)
  /\ fst (PolicyA.on_fetch Demo.Offline Demo.navigation Demo.empty)
     ≠ RespondWith (Rejected (NetworkError (url Demo.navigation))).
Proof. repeat split; try reflexivity. discriminate. Qed.

(** C6, amended. Under Policy A, for every intercepted GET same-origin
    navigation request that the store lacks and whose network fetch fails,
    the promise given to [respondWith] fulfils with the result of looking up
    the root document: the cached entry when there is one, [undefined] when
    there is none.  The failure of the fetch is logged and not rethrown. *)
Theorem navigation_falls_back_to_root_lookup_A
    (P : Platform) (req : Request) (w : World) :
  method req = "GET" ->
  same_origin (location_origin P) req ->
  destination req = "document" ->
  storage_lookup (caches w) (url req) = None ->
  network P (url req) = None ->
  ∃ ro w',
    PolicyA.on_fetch P req w = (RespondWith (Fulfilled ro), w')
    /\ resp_data <$> ro = storage_lookup (caches w) (resolve_url P "./index.html")
    /\ trace w' = trace w
                  ++ [CachesMatch (url req); NetFetch (url req);
                      ConsoleError "Service Worker: Network fetch failed";
                      CachesMatch (resolve_url P "./index.html")]
    /\ caches w' = caches w.
Proof.
  intros Hm Ho Hdoc Hmiss Hnet.
  destruct (guard_passes P req Hm Ho) as [G1 G2].
  unfold PolicyA.on_fetch. rewrite G1, G2.
  unfold PolicyA.respond, bind at 1. rewrite (caches_match_miss _ _ Hmiss).
  unfold catch, bind at 1. rewrite fetch_fails by exact Hnet.
  rewrite (string_eqb_true _ _ Hdoc).
  unfold bind at 1, console_error, emit at 1. cbn iota beta.
  destruct (storage_lookup (caches w) (resolve_url P "./index.html")) as [d|] eqn:E.
  - rewrite caches_match_hit with (d := d) by exact E.
    do 2 eexists. split; [reflexivity|]. simpl. rewrite <- !app_assoc.
    repeat split; reflexivity.
  - rewrite caches_match_miss by exact E.
    do 2 eexists. split; [reflexivity|]. simpl. rewrite <- !app_assoc.
    repeat split; reflexivity.
Qed.

Lemma navigation_falls_back_to_root_lookup_A_witness :
  ∃ ro w',
    PolicyA.on_fetch Demo.Offline Demo.navigation Demo.empty
    = (RespondWith (Fulfilled ro), w')
    /\ resp_data <$> ro = None
    /\ trace w' = [CachesMatch "https://a.com/app/tasks";
                   NetFetch "https://a.com/app/tasks";
                   ConsoleError "Service Worker: Network fetch failed";
                   CachesMatch "https://a.com/app/index.html"]
    /\ caches w' = [].
Proof.
  apply (navigation_falls_back_to_root_lookup_A Demo.Offline Demo.navigation
           Demo.empty); reflexivity.
Defined.

(** ** Cache miss, network success *)

Lemma store_copy_A (P : Platform) :
  PolicyA.cache_dynamic P =
    store_copy P PolicyA.DYNAMIC_CACHE "Service Worker: Caching dynamic content"
      "Service Worker: Failed to cache dynamic content".
Proof. reflexivity. Qed.

Lemma store_copy_B (P : Platform) :
  PolicyB.cache_new_content P =
    store_copy P PolicyB.STATIC_CACHE "Service Worker: Caching new content"
      "Service Worker: Failed to cache new content".
Proof. reflexivity. Qed.

Lemma store_copy_run (P : Platform) (name m_ok m_err : string)
    (req : Request) (c : Response) (w : World) :
  resp_stream c ∉ consumed w ->
  store_copy P name m_ok m_err req c w
  = (Fulfilled tt, after_store_copy P name m_ok m_err req c w).
Proof.
  intros Hc. unfold store_copy, after_store_copy, caches_open, cache_put. run.
  destruct (open_ok P name); simpl.
  - rewrite bool_decide_eq_false_2 by exact Hc.
    destruct (put_ok P name (url req)); simpl; by rewrite <- !app_assoc.
  - by rewrite <- !app_assoc.
Qed.

Lemma has_cache_after_open (name : string) (cs : CacheStorage) :
  has_cache name (storage_open name cs) = true.
Proof.
  unfold storage_open. destruct (has_cache name cs) eqn:E; [exact E|].
  unfold has_cache. rewrite existsb_app. simpl.
  by rewrite String.eqb_refl, orb_true_r.
Qed.

Lemma cache_entry_after_put (name u : string) (d : Snapshot) (cs : CacheStorage) :
  has_cache name cs = true ->
  cache_entry name u (storage_put name u d cs) = Some d.
Proof.
  unfold has_cache, cache_entry, storage_put.
  induction cs as [|[n c] cs IH]; simpl; [discriminate|].
  destruct (String.eqb n name) eqn:E; simpl.
  - intros _. rewrite E. simpl. apply lookup_insert_eq.
  - intros H. rewrite E. by apply IH.
Qed.

Lemma fetch_succeeds (P : Platform) (u : string) (w : World) (d : Snapshot) :
  network P u = Some d ->
  fetch P u w =
    (Fulfilled {| resp_data := d; resp_stream := next_stream w |},
     {| caches := caches w; consumed := consumed w;
        next_stream := S (next_stream w); trace := trace w ++ [NetFetch u] |}).
Proof. intros H. unfold fetch. run. by rewrite H. Qed.

Lemma clone_unread (r : Response) (w : World) :
  resp_stream r ∉ consumed w ->
  response_clone r w =
    (Fulfilled {| resp_data := resp_data r; resp_stream := next_stream w |},
     {| caches := caches w; consumed := consumed w;
        next_stream := S (next_stream w);
        trace := trace w ++ [BodyClone (resp_stream r) (next_stream w)] |}).
Proof.
  intros H. unfold response_clone. run. by rewrite bool_decide_eq_false_2.
Qed.

Lemma cacheable_200_basic (d : Snapshot) (s : nat) :
  status d = 200 -> rtype d = TBasic ->
  not_cacheable {| resp_data := d; resp_stream := s |} = false.
Proof.
  intros Hs Ht. unfold not_cacheable. simpl. rewrite Hs, Ht. reflexivity.
Qed.

Lemma fresh_stream_unread (w : World) (k : nat) :
  streams_ok w -> (next_stream w + k)%nat ∉ consumed w.
Proof. intros Hok Hin. apply Hok in Hin. lia. Qed.

(** The conclusions of [captured] about the write chain, read off the world
    that [after_store_copy] describes. *)
Lemma captured_from_chain (on_fetch : Request -> World -> Interception * World)
    (P : Platform) (name m_ok m_err : string) (req : Request) (w : World)
    (d : Snapshot) (l : list Effect) :
  streams_ok w ->
  store_writes l = 0%nat -> network_calls l = 0%nat ->
  on_fetch req w =
    (RespondWith (Fulfilled (Some {| resp_data := d; resp_stream := next_stream w |})),
     after_store_copy P name m_ok m_err req
       {| resp_data := d; resp_stream := S (next_stream w) |}
       {| caches := caches w; consumed := consumed w;
          next_stream := S (S (next_stream w));
          trace := trace w ++ [CachesMatch (url req)] ++ l ++ [NetFetch (url req)]
                   ++ [BodyClone (next_stream w) (S (next_stream w))] |}) ->
  captured on_fetch P name req w d.
Proof.
  intros Hok Hl1 Hl2 Hrun. unfold captured.
  pose proof (fresh_stream_unread w 0 Hok) as Hfresh.
  rewrite Nat.add_0_r in Hfresh.
  unfold after_store_copy in Hrun.
  assert (Hb : store_writes ([CachesMatch (url req)] ++ l ++ [NetFetch (url req)]) = 0%nat).
  { unfold store_writes in *. rewrite !count_app, Hl1. reflexivity. }
  assert (Hn : ∀ t, network_calls t = 0%nat ->
               network_calls (([CachesMatch (url req)] ++ l ++ [NetFetch (url req)]) ++ t)
               = 1%nat).
  { intros t Ht. unfold network_calls in *. rewrite !count_app, Hl2, Ht. reflexivity. }
  cbn [resp_data resp_stream caches consumed next_stream trace] in Hrun.
  destruct (open_ok P name) eqn:Eo; [destruct (put_ok P name (url req)) eqn:Ep|].
  - exists {| resp_data := d; resp_stream := next_stream w |},
           {| resp_data := d; resp_stream := S (next_stream w) |}.
    eexists. exists ([CachesMatch (url req)] ++ l ++ [NetFetch (url req)]).
    exists [CachesOpen name; ConsoleLog m_ok;
            CachePut name (url req) (S (next_stream w))].
    split; [exact Hrun|]. cbn [resp_data resp_stream caches consumed trace].
    split; [reflexivity|]. split; [reflexivity|]. split; [lia|].
    split. { unfold readable. simpl. rewrite elem_of_cons. intros [?|?]; [lia|tauto]. }
    split. { by rewrite <- !app_assoc. }
    split; [exact Hb|]. split; [by apply Hn|].
    split. { intros _. split; [reflexivity|]. simpl. tauto. }
    split; [discriminate|].
    split. { intros _ _. apply cache_entry_after_put, has_cache_after_open. }
    discriminate.
  - exists {| resp_data := d; resp_stream := next_stream w |},
           {| resp_data := d; resp_stream := S (next_stream w) |}.
    eexists. exists ([CachesMatch (url req)] ++ l ++ [NetFetch (url req)]).
    exists [CachesOpen name; ConsoleLog m_ok;
            CachePut name (url req) (S (next_stream w))].
    split; [exact Hrun|]. cbn [resp_data resp_stream caches consumed trace].
    split; [reflexivity|]. split; [reflexivity|]. split; [lia|].
    split; [exact Hfresh|].
    split. { by rewrite <- !app_assoc. }
    split; [exact Hb|]. split; [by apply Hn|].
    split. { intros _. split; [reflexivity|]. simpl. tauto. }
    split; [discriminate|].
    split; [discriminate|].
    intros _ _. split; reflexivity.
  - exists {| resp_data := d; resp_stream := next_stream w |},
           {| resp_data := d; resp_stream := S (next_stream w) |}.
    eexists. exists ([CachesMatch (url req)] ++ l ++ [NetFetch (url req)]).
    exists [CachesOpen name; ConsoleError m_err].
    split; [exact Hrun|]. cbn [resp_data resp_stream caches consumed trace].
    split; [reflexivity|]. split; [reflexivity|]. split; [lia|].
    split; [exact Hfresh|].
    split. { by rewrite <- !app_assoc. }
    split; [exact Hb|]. split; [by apply Hn|].
    split; [discriminate|].
    split. { intros _. repeat split; reflexivity. }
    split; discriminate.
Qed.

(** X12. A cache miss answered by a status 200 basic response: the caller
    gets the original response with its body unread, a clone is made before
    any store write, exactly one fetch is issued, and the clone is what the
    write chain works on.  If the generation opens, one [cache.put] of the
    clone is issued, and when it is accepted the entry stored under the
    request URL carries the bytes of the network response; if the generation
    does not open, nothing is written and one error is logged; if the write
    is refused, the generation is left opened and no error is logged.  In
    every case the caller's response is the same. *)
Lemma network_response_captured
    (P : Platform) (req : Request) (w : World) (d : Snapshot) :
  method req = "GET" ->
  same_origin (location_origin P) req ->
  storage_lookup (caches w) (url req) = None ->
  network P (url req) = Some d ->
  status d = 200 -> rtype d = TBasic ->
  streams_ok w ->
  captured (PolicyA.on_fetch P) P PolicyA.DYNAMIC_CACHE req w d
  /\ captured (PolicyB.on_fetch P) P PolicyB.STATIC_CACHE req w d.
Proof.
  intros Hm Ho Hmiss Hnet Hs Ht Hok.
  destruct (guard_passes P req Hm Ho) as [G1 G2].
  pose proof (fresh_stream_unread w 0 Hok) as Hf0.
  pose proof (fresh_stream_unread w 1 Hok) as Hf1.
  rewrite Nat.add_0_r in Hf0. rewrite Nat.add_1_r in Hf1.
  split.
  - eapply (captured_from_chain _ P _ _ _ req w d []); [exact Hok|reflexivity..|].
    unfold PolicyA.on_fetch. rewrite G1, G2.
    unfold PolicyA.respond, bind at 1. rewrite (caches_match_miss _ _ Hmiss).
    unfold catch, bind at 1. rewrite (fetch_succeeds _ _ _ _ Hnet).
    cbn [next_stream caches consumed trace].
    rewrite (cacheable_200_basic _ _ Hs Ht).
    unfold bind at 1. rewrite clone_unread by exact Hf0.
    cbn [next_stream caches consumed trace resp_stream resp_data].
    unfold bind at 1. rewrite store_copy_A, store_copy_run by exact Hf1.
    unfold ret. rewrite <- !app_assoc. reflexivity.
  - destruct (log_offline_mode_effect P req
                {| caches := caches w; consumed := consumed w;
                   next_stream := next_stream w;
                   trace := trace w ++ [CachesMatch (url req)] |})
      as (l & El & Hl).
    eapply (captured_from_chain _ P _ _ _ req w d l);
      [exact Hok | destruct Hl as [-> | ->]; reflexivity.. |].
    unfold PolicyB.on_fetch. rewrite G1, G2, (caches_match_miss _ _ Hmiss), El.
    unfold PolicyB.after_match, bind at 1.
    unfold catch, bind at 1. rewrite (fetch_succeeds _ _ _ _ Hnet).
    cbn [next_stream caches consumed trace].
    rewrite (cacheable_200_basic _ _ Hs Ht).
    unfold bind at 1. rewrite clone_unread by exact Hf0.
    cbn [next_stream caches consumed trace resp_stream resp_data].
    unfold bind at 1. rewrite store_copy_B, store_copy_run by exact Hf1.
    unfold ret. rewrite <- !app_assoc. reflexivity.
Qed.

Lemma network_response_captured_witness :
  captured (PolicyA.on_fetch Demo.Online) Demo.Online PolicyA.DYNAMIC_CACHE
    Demo.script Demo.empty (Demo.page "js")
  /\ captured (PolicyB.on_fetch Demo.Online) Demo.Online PolicyB.STATIC_CACHE
       Demo.script Demo.empty (Demo.page "js").
Proof.
  apply (network_response_captured Demo.Online Demo.script Demo.empty
           (Demo.page "js")); try reflexivity.
  intros s Hs. by apply elem_of_nil in Hs.
Defined.

(** C4. The claim holds for the clone, the single write and the caller's
    response ([network_response_captured]); it fails for the logging of a
    failed write.  With a store that refuses the write, the request below is
    a GET to the own origin, misses the cache and gets a status 200 basic
    response; both policies hand the caller the unread original and attempt
    the one write, the write fails, and nothing is logged as an error:
    [cache.put]'s promise is dropped inside the callback, so the [catch]
    that logs never sees its rejection. *)
Theorem refused_store_write_is_not_logged :
  method Demo.script = "GET"
  /\ same_origin (location_origin Demo.QuotaFull) Demo.script
  /\ storage_lookup (caches Demo.empty) (url Demo.script) = None
  /\ network Demo.QuotaFull (url Demo.script) = Some (Demo.page "js")
  /\ put_ok Demo.QuotaFull PolicyA.DYNAMIC_CACHE (url Demo.script) = false
  /\ put_ok Demo.QuotaFull PolicyB.STATIC_CACHE (url Demo.script) = false
  /\ PolicyA.on_fetch Demo.QuotaFull Demo.script Demo.empty
     = (RespondWith (Fulfilled (Some {| resp_data := Demo.page "js"; resp_stream := 0 |})),
        {| caches := [(PolicyA.DYNAMIC_CACHE, ∅)];
           consumed := [];
           next_stream := 2;
           trace := [CachesMatch "https://a.com/app/x.js";
                     NetFetch "https://a.com/app/x.js";
                     BodyClone 0 1;
                     CachesOpen PolicyA.DYNAMIC_CACHE;
                     ConsoleLog "Service Worker: Caching dynamic content";
                     CachePut PolicyA.DYNAMIC_CACHE "https://a.com/app/x.js" 1] |})
  /\ error_logs (trace (snd (PolicyA.on_fetch Demo.QuotaFull Demo.script Demo.empty)))
     = 0%nat
  /\ PolicyB.on_fetch Demo.QuotaFull Demo.script Demo.empty
     = (RespondWith (Fulfilled (Some {| resp_data := Demo.page "js"; resp_stream := 0 |})),
        {| caches := [(PolicyB.STATIC_CACHE, ∅)];
           consumed := [];
           next_stream := 2;
           trace := [CachesMatch "https://a.com/app/x.js";
                     ConsoleLog "Service Worker: App running in offline mode";
                     NetFetch "https://a.com/app/x.js";
                     BodyClone 0 1;
                     CachesOpen PolicyB.STATIC_CACHE;
                     ConsoleLog "Service Worker: Caching new content";
                     CachePut PolicyB.STATIC_CACHE "https://a.com/app/x.js" 1] |})
  /\ error_logs (trace (snd (PolicyB.on_fetch Demo.QuotaFull Demo.script Demo.empty)))
     = 0%nat.
Proof. repeat split; reflexivity. Qed.

(** A failed [caches.open], by contrast, is logged. *)
Example refused_open_is_logged :
  let P := {| location_origin := "https://a.com"; base_url := "https://a.com/app/";
              network := Demo.online;
              open_ok := fun _ => false; put_ok := fun _ _ => true |} in
  trace (snd (PolicyA.on_fetch P Demo.script Demo.empty))
  = [CachesMatch "https://a.com/app/x.js";
     NetFetch "https://a.com/app/x.js";
     BodyClone 0 1;
     CachesOpen PolicyA.DYNAMIC_CACHE;
     ConsoleError "Service Worker: Failed to cache dynamic content"].
Proof. reflexivity. Qed.

(** ** Requests the router declines *)



(** C7. The claim holds for a request that is not a GET and for a URL that
    does not start with the text of the origin ([declined_requests_untouched]).
    The guard compares text, not origins: the request below goes to another
    port of the worker's host, so to another origin, yet its URL starts with
    the worker's origin.  Both policies intercept it: they look it up in the
    store and issue the network fetch themselves. *)
Theorem other_port_request_is_intercepted :
  method Demo.other_port = "GET"
  /\ url_origin (url Demo.other_port) = Some "https://a.com:8443"
  /\ ¬ same_origin (location_origin CrossOrigin.platform) Demo.other_port
  /\ startsWith (url Demo.other_port) (location_origin CrossOrigin.platform) = true
  /\ PolicyA.on_fetch CrossOrigin.platform Demo.other_port Demo.empty
     = (RespondWith
          (Fulfilled (Some {| resp_data :=
                                {| status := 200; rtype := TCors;
                                   headers := [("Content-Type", "application/json")];
                                   body := "[]" |};
                              resp_stream := 0 |})),
        {| caches := []; consumed := []; next_stream := 1;
           trace := [CachesMatch "https://a.com:8443/api/items";
                     NetFetch "https://a.com:8443/api/items"] |})
  /\ store_lookups
       (trace (snd (PolicyA.on_fetch CrossOrigin.platform Demo.other_port Demo.empty)))
     = 1%nat
  /\ PolicyB.on_fetch CrossOrigin.platform Demo.other_port Demo.empty
     = (RespondWith
          (Fulfilled (Some {| resp_data :=
                                {| status := 200; rtype := TCors;
                                   headers := [("Content-Type", "application/json")];
                                   body := "[]" |};
                              resp_stream := 0 |})),
        {| caches := []; consumed := []; next_stream := 1;
           trace := [CachesMatch "https://a.com:8443/api/items";
                     ConsoleLog "Service Worker: App running in offline mode";
                     NetFetch "https://a.com:8443/api/items"] |})
  /\ store_lookups
       (trace (snd (PolicyB.on_fetch CrossOrigin.platform Demo.other_port Demo.empty)))
     = 1%nat.
Proof. repeat split; try reflexivity. unfold same_origin. simpl. discriminate. Qed.

(** ** Installation *)

Lemma addAll_entries_rejects (P : Platform) (name : string) (us : list string) :
  existsb (fun u => negb (storable P name u)) us = true ->
  ∃ e, addAll_entries P name us = Rejected e.
Proof.
  induction us as [|u us IH]; simpl; [discriminate|].
  unfold storable at 1, addAll_entry.
  destruct (network P u) as [d|]; simpl; [|by eexists].
  destruct (response_ok d); simpl; [|by eexists].
  destruct (put_ok P name u); simpl; [|by eexists].
  intros H. destruct (IH H) as [e ->]. by eexists.
Qed.

(** A generation opened and left empty changes no lookup. *)
Lemma storage_lookup_after_open (name u : string) (cs : CacheStorage) :
  storage_lookup (storage_open name cs) u = storage_lookup cs u.
Proof.
  unfold storage_open. destruct (has_cache name cs); [reflexivity|].
  induction cs as [|[n c] cs IH]; simpl; [reflexivity|].
  destruct (c !! u); [reflexivity | exact IH].
Qed.

Lemma fetches_run (us : list string) (w : World) :
  ∃ bs,
    promise_all (fun u => emit (NetFetch u)) us w =
      (Fulfilled bs,
       {| caches := caches w; consumed := consumed w;
          next_stream := next_stream w;
          trace := trace w ++ List.map NetFetch us |}).
Proof.
  revert w. induction us as [|u us IH]; intros w; simpl.
  - eexists. unfold ret. rewrite app_nil_r. by destruct w.
  - unfold emit at 1. edestruct IH as [bs ->]. eexists. simpl.
    by rewrite <- !app_assoc.
Qed.

(** [cache.addAll] on a manifest with an entry that cannot be fetched and
    stored: it rejects and writes nothing. *)
Lemma addAll_rejects (P : Platform) (name : string) (rels : list string) (w : World) :
  existsb (fun u => negb (storable P name u)) (List.map (resolve_url P) rels) = true ->
  ∃ e, cache_addAll P name rels w =
         (Rejected e,
          {| caches := caches w; consumed := consumed w;
             next_stream := next_stream w;
             trace := trace w
                      ++ [CacheAddAll name (List.map (resolve_url P) rels)]
                      ++ List.map NetFetch (List.map (resolve_url P) rels) |}).
Proof.
  intros H. destruct (addAll_entries_rejects P name _ H) as [e He].
  exists e. unfold cache_addAll. cbv zeta. unfold bind at 1, emit at 1.
  unfold bind at 1.
  edestruct (fetches_run (List.map (resolve_url P) rels)) as [bs ->].
  rewrite He. unfold throw. simpl. by rewrite <- !app_assoc.
Qed.

Lemma caches_open_ok (P : Platform) (name : string) (w : World) :
  open_ok P name = true ->
  caches_open P name w =
    (Fulfilled name,
     {| caches := storage_open name (caches w); consumed := consumed w;
        next_stream := next_stream w; trace := trace w ++ [CachesOpen name] |}).
Proof. intros H. unfold caches_open. run. by rewrite H. Qed.

Lemma caches_open_refused (P : Platform) (name : string) (w : World) :
  open_ok P name = false ->
  caches_open P name w =
    (Rejected (StorageError name),
     {| caches := caches w; consumed := consumed w;
        next_stream := next_stream w; trace := trace w ++ [CachesOpen name] |}).
Proof. intros H. unfold caches_open. run. by rewrite H. Qed.

Lemma storage_open_twice (name : string) (cs : CacheStorage) :
  storage_open name (storage_open name cs) = storage_open name cs.
Proof.
  unfold storage_open at 1. by rewrite has_cache_after_open.
Qed.

(** The chain [caches.open(name).then(cache => cache.addAll(files))] on a
    manifest that fails. *)
Lemma open_addAll_rejects (P : Platform) (name : string) (files : list string)
    (k : M unit) (w : World) :
  negb (open_ok P name)
  || existsb (fun u => negb (storable P name u)) (List.map (resolve_url P) files)
  = true ->
  ∃ e t,
    (cache <- caches_open P name ;; cache_addAll P cache files ;; k) w =
      (Rejected e,
       {| caches := store_after_failed_install P name (caches w);
          consumed := consumed w; next_stream := next_stream w;
          trace := trace w ++ t |}).
Proof.
  intros H. unfold store_after_failed_install, bind at 1.
  destruct (open_ok P name) eqn:Eo; simpl in H.
  - rewrite caches_open_ok by exact Eo. unfold bind at 1.
    edestruct (addAll_rejects P name files) as [e ->]; [exact H|].
    do 2 eexists. simpl. rewrite <- !app_assoc. reflexivity.
  - rewrite caches_open_refused by exact Eo.
    do 2 eexists. reflexivity.
Qed.

(** The same chain with the console line that the first install listener
    writes before [cache.addAll]. *)
Lemma open_log_addAll_rejects (P : Platform) (name msg : string)
    (files : list string) (k : M unit) (w : World) :
  negb (open_ok P name)
  || existsb (fun u => negb (storable P name u)) (List.map (resolve_url P) files)
  = true ->
  ∃ e t,
    (cache <- caches_open P name ;;
     (console_log msg ;; cache_addAll P cache files) ;; k) w =
      (Rejected e,
       {| caches := store_after_failed_install P name (caches w);
          consumed := consumed w; next_stream := next_stream w;
          trace := trace w ++ t |}).
Proof.
  intros H. unfold store_after_failed_install, bind at 1.
  destruct (open_ok P name) eqn:Eo; simpl in H.
  - rewrite caches_open_ok by exact Eo.
    unfold bind at 1, bind at 1, console_log, emit at 1.
    edestruct (addAll_rejects P name files) as [e ->]; [exact H|].
    do 2 eexists. simpl. rewrite <- !app_assoc. reflexivity.
  - rewrite caches_open_refused by exact Eo.
    do 2 eexists. reflexivity.
Qed.

(** X13. Under Policy B a manifest entry that cannot be fetched and stored
    (or a static generation that cannot be opened) makes the install event
    fail: the promise of the second install listener rejects, so the worker
    is not activatable, and no generation gained an entry: every lookup in
    the store answers as before. *)
Lemma install_fails_atomically_B (P : Platform) (w : World) :
  manifest_fails_B P = true ->
  ∃ e w',
    PolicyB.on_install P w = (Rejected e, w')
    /\ activatable (fst (PolicyB.on_install P w)) = false
    /\ caches w' = store_after_failed_install P PolicyB.STATIC_CACHE (caches w)
    /\ ∀ u, storage_lookup (caches w') u = storage_lookup (caches w) u.
Proof.
  intros H. unfold manifest_fails_B in H.
  assert (Hrun : ∃ e w',
             PolicyB.on_install P w = (Rejected e, w')
             /\ caches w' = store_after_failed_install P PolicyB.STATIC_CACHE (caches w)).
  { unfold PolicyB.on_install, wait_until_both.
    unfold bind at 1, console_log at 1, emit at 1.
    unfold PolicyB.install_promise, catch.
    edestruct (open_log_addAll_rejects P PolicyB.STATIC_CACHE
                 "Service Worker: Caching all files for offline use"
                 PolicyB.STATIC_FILES)
      as (e1 & t1 & ->); [exact H|].
    unfold console_error, emit at 1. unfold PolicyB.ensure_promise.
    edestruct (open_addAll_rejects P PolicyB.STATIC_CACHE PolicyB.STATIC_FILES)
      as (e2 & t2 & ->); [exact H|].
    do 2 eexists. split; [reflexivity|]. simpl.
    unfold store_after_failed_install.
    destruct (open_ok P PolicyB.STATIC_CACHE); [apply storage_open_twice | reflexivity]. }
  destruct Hrun as (e & w' & Hrun & Hc).
  exists e, w'. rewrite Hrun. repeat split; [exact Hc|].
  intros u. rewrite Hc. unfold store_after_failed_install.
  destruct (open_ok P PolicyB.STATIC_CACHE); [apply storage_lookup_after_open | reflexivity].
Qed.

Lemma install_fails_atomically_B_witness :
  ∃ e w',
    PolicyB.on_install Demo.NoIndex Scenario.root_cached = (Rejected e, w')
    /\ activatable (fst (PolicyB.on_install Demo.NoIndex Scenario.root_cached)) = false
    /\ caches w' = store_after_failed_install Demo.NoIndex PolicyB.STATIC_CACHE
                     (caches Scenario.root_cached)
    /\ ∀ u, storage_lookup (caches w') u
            = storage_lookup (caches Scenario.root_cached) u.
Proof.
  apply (install_fails_atomically_B Demo.NoIndex Scenario.root_cached).
  reflexivity.
Defined.

(** Under Policy A the promise given to [waitUntil] ends in a [catch] whose
    handler only logs, so the install event never fails. *)
Lemma install_always_fulfils_A (P : Platform) (w : World) :
  fst (PolicyA.on_install P w) = Fulfilled tt.
Proof.
  unfold PolicyA.on_install, bind at 1, console_log, emit at 1.
  unfold PolicyA.install_promise, catch.
  match goal with |- context [bind ?p ?f ?w0] => destruct (bind p f w0) as [[[]|e] w1] end;
    reflexivity.
Qed.

(** The scenario of the specification: with every manifest file on the
    server, install leaves all three retrievable from the static generation. *)
Example install_scenario :
  fst (PolicyB.on_install Demo.Online Demo.empty) = Fulfilled tt
  /\ List.map
       (fun u => body <$> cache_entry PolicyB.STATIC_CACHE (resolve_url Demo.Online u)
                            (caches (snd (PolicyB.on_install Demo.Online Demo.empty))))
       PolicyB.STATIC_FILES
     = [Some "root"; Some "index"; Some "manifest"]%string.
Proof. split; reflexivity. Qed.

(** C1. The claim holds for Policy B ([install_fails_atomically_B]) and fails
    for Policy A ([install_always_fulfils_A]).  With [./index.html] missing
    on the server, the install event of Policy A logs "Installation failed",
    and the promise given to [waitUntil] fulfils all the same: the worker is
    activatable with a static generation that holds none of the manifest.
    On the same input the install event of Policy B rejects. *)
Theorem failed_install_still_fulfils_A :
  manifest_fails_A Demo.NoIndex = true
  /\ PolicyA.on_install Demo.NoIndex Demo.empty
     = (Fulfilled tt,
        {| caches := [(PolicyA.STATIC_CACHE, ∅)];
           consumed := [];
           next_stream := 0;
           trace := [ConsoleLog "Service Worker: Installing...";
                     CachesOpen PolicyA.STATIC_CACHE;
                     ConsoleLog "Service Worker: Caching static files";
                     CacheAddAll PolicyA.STATIC_CACHE
                       ["https://a.com/app/"; "https://a.com/app/index.html";
                        "https://a.com/app/manifest.json"]%string;
                     NetFetch "https://a.com/app/";
                     NetFetch "https://a.com/app/index.html";
                     NetFetch "https://a.com/app/manifest.json";
                     ConsoleError "Service Worker: Installation failed";
                     CachesKeys] |})
  /\ activatable (fst (PolicyA.on_install Demo.NoIndex Demo.empty)) = true
  /\ List.map
       (fun u => storage_lookup
                   (caches (snd (PolicyA.on_install Demo.NoIndex Demo.empty)))
                   (resolve_url Demo.NoIndex u))
       PolicyA.STATIC_FILES
     = [None; None; None]
  /\ fst (PolicyB.on_install Demo.NoIndex Demo.empty)
     = Rejected (NetworkError "https://a.com/app/index.html").
Proof. repeat split; reflexivity. Qed.

(** ** The command channel *)

Lemma data_type_is_this (ev : MessageEvent) (o : JsObject) (t : string) :
  data ev = Some o -> get_field o "type" = Some (JsString t) ->
  data_type_is ev t = true.
Proof.
  intros Hd Ht. unfold data_type_is. rewrite Hd.
  by apply bool_decide_eq_true_2.
Qed.

Lemma data_type_is_other (ev : MessageEvent) (o : JsObject) (t t' : string) :
  data ev = Some o -> get_field o "type" = Some (JsString t) -> t ≠ t' ->
  data_type_is ev t' = false.
Proof.
  intros Hd Ht Hne. unfold data_type_is. rewrite Hd.
  apply bool_decide_eq_false_2. rewrite Ht. congruence.
Qed.

(** The claim C8 asks for a [mode] and an [offline] field in every reply to
    [GET_VERSION], and for the generation identifier in [version].  The reply
    of Policy A has the [version] field only; and the [version] that Policy B
    sends, [CACHE_NAME], is not the identifier of the generation the worker
    installs into: after a successful install no generation has that name. *)
Lemma get_version_reply_A_has_version_only :
  trace (snd (PolicyA.on_message Demo.GET_VERSION Demo.empty))
  = [ConsoleLog "Service Worker: Message received";
     PostMessage 7 [("version", JsString "better-yourself-v1.0.0")]]
  /\ has_field [("version", JsString "better-yourself-v1.0.0")] "mode" = false
  /\ has_field [("version", JsString "better-yourself-v1.0.0")] "offline" = false
  /\ PolicyB.CACHE_NAME ≠ PolicyB.STATIC_CACHE
  /\ List.map fst (caches (snd (PolicyB.on_install Demo.Online Demo.empty)))
     = [PolicyB.STATIC_CACHE]
  /\ has_cache PolicyB.CACHE_NAME
       (caches (snd (PolicyB.on_install Demo.Online Demo.empty))) = false.
Proof. repeat split; try reflexivity. discriminate. Qed.

(** C8, amended. For every message [{type: "GET_VERSION"}] that comes with a
    reply port, Policy B posts on that port the object
    [{version: CACHE_NAME, offline: true, mode: "offline-first"}] and
    Policy A posts [{version: CACHE_NAME}] and nothing else; [CACHE_NAME] is
    the version label of the worker ("better-yourself-offline-v1.0.0",
    "better-yourself-v1.0.0"), a constant apart from the identifiers of the
    stored generations. *)
Theorem get_version_reply (P : Platform) (ev : MessageEvent) (o : JsObject)
    (p : nat) (ps : list nat) (w : World) :
  data ev = Some o ->
  get_field o "type" = Some (JsString "GET_VERSION") ->
  ports ev = p :: ps ->
  PolicyB.on_message P ev w =
    (Fulfilled tt,
     {| caches := caches w; consumed := consumed w; next_stream := next_stream w;
        trace := trace w
                 ++ [ConsoleLog "Service Worker: Message received";
                     PostMessage p [("version", JsString "better-yourself-offline-v1.0.0");
                                    ("offline", JsBool true);
                                    ("mode", JsString "offline-first")]] |})
  /\ PolicyA.on_message ev w =
       (Fulfilled tt,
        {| caches := caches w; consumed := consumed w; next_stream := next_stream w;
           trace := trace w
                    ++ [ConsoleLog "Service Worker: Message received";
                        PostMessage p [("version", JsString "better-yourself-v1.0.0")]] |}).
Proof.
  intros Hd Ht Hp.
  unfold PolicyB.on_message, PolicyA.on_message.
  rewrite (data_type_is_this ev o _ Hd Ht).
  rewrite (data_type_is_other ev o "GET_VERSION" "SKIP_WAITING" Hd Ht) by discriminate.
  rewrite (data_type_is_other ev o "GET_VERSION" "CACHE_STATUS" Hd Ht) by discriminate.
  unfold post_message. rewrite Hp. run. rewrite <- !app_assoc. split; reflexivity.
Qed.

Lemma get_version_reply_witness :
  PolicyB.on_message Demo.Online Demo.GET_VERSION Demo.empty =
    (Fulfilled tt,
     {| caches := []; consumed := []; next_stream := 0;
        trace := [ConsoleLog "Service Worker: Message received";
                  PostMessage 7 [("version", JsString "better-yourself-offline-v1.0.0");
                                 ("offline", JsBool true);
                                 ("mode", JsString "offline-first")]] |})
  /\ PolicyA.on_message Demo.GET_VERSION Demo.empty =
       (Fulfilled tt,
        {| caches := []; consumed := []; next_stream := 0;
           trace := [ConsoleLog "Service Worker: Message received";
                     PostMessage 7 [("version", JsString "better-yourself-v1.0.0")]] |}).
Proof.
  apply (get_version_reply Demo.Online Demo.GET_VERSION
           [("type", JsString "GET_VERSION")] 7%nat [] Demo.empty); reflexivity.
Defined.

(** The claim C9 asks for a reply to every [CACHE_STATUS] message.  Policy A
    has no branch for it: the message is logged and nothing is posted. *)
Lemma cache_status_unanswered_A :
  PolicyA.on_message Demo.CACHE_STATUS Demo.empty
  = (Fulfilled tt,
     {| caches := []; consumed := []; next_stream := 0;
        trace := [ConsoleLog "Service Worker: Message received"] |})
  /\ replies (trace (snd (PolicyA.on_message Demo.CACHE_STATUS Demo.empty))) = 0%nat.
Proof. split; reflexivity. Qed.

(** C9, amended. For every message [{type: "CACHE_STATUS"}] that comes with
    a reply port, Policy B posts on that port the object
    [{cached, ready: true, mode: "offline"}], where [cached] is true exactly
    when some generation of the store holds the root document
    [./index.html]; Policy A posts no reply to such a message. *)
Theorem cache_status_reply (P : Platform) (ev : MessageEvent) (o : JsObject)
    (p : nat) (ps : list nat) (w : World) :
  data ev = Some o ->
  get_field o "type" = Some (JsString "CACHE_STATUS") ->
  ports ev = p :: ps ->
  (∃ w' (cached : bool),
      PolicyB.on_message P ev w = (Fulfilled tt, w')
      /\ trace w' = trace w
                    ++ [ConsoleLog "Service Worker: Message received";
                        CachesMatch (resolve_url P "./index.html");
                        PostMessage p [("cached", JsBool cached);
                                       ("ready", JsBool true);
                                       ("mode", JsString "offline")]]
      /\ (cached = true <->
          is_Some (storage_lookup (caches w) (resolve_url P "./index.html")))
      /\ caches w' = caches w)
  /\ PolicyA.on_message ev w =
       (Fulfilled tt,
        {| caches := caches w; consumed := consumed w; next_stream := next_stream w;
           trace := trace w ++ [ConsoleLog "Service Worker: Message received"] |}).
Proof.
  intros Hd Ht Hp.
  unfold PolicyB.on_message, PolicyA.on_message.
  rewrite (data_type_is_this ev o _ Hd Ht).
  rewrite (data_type_is_other ev o "CACHE_STATUS" "SKIP_WAITING" Hd Ht) by discriminate.
  rewrite (data_type_is_other ev o "CACHE_STATUS" "GET_VERSION" Hd Ht) by discriminate.
  split; [|run; reflexivity].
  unfold bind at 1, console_log, emit at 1.
  unfold bind at 1, ret at 1. unfold bind at 1, ret at 1.
  unfold detach, bind at 1.
  destruct (storage_lookup (caches w) (resolve_url P "./index.html")) as [d|] eqn:E.
  - rewrite caches_match_hit with (d := d) by exact E.
    unfold post_message. rewrite Hp. run.
    exists
      {| caches := caches w; consumed := consumed w;
         next_stream := S (next_stream w);
         trace := ((trace w ++ [ConsoleLog "Service Worker: Message received"]) ++
                   [CachesMatch (resolve_url P "./index.html")]) ++
                  [PostMessage p [("cached", JsBool true); ("ready", JsBool true);
                                  ("mode", JsString "offline")]] |}, true.
    split; [reflexivity|]. simpl. rewrite <- !app_assoc.
    repeat split; eauto.
  - rewrite caches_match_miss by exact E.
    unfold post_message. rewrite Hp. run.
    exists
      {| caches := caches w; consumed := consumed w;
         next_stream := next_stream w;
         trace := ((trace w ++ [ConsoleLog "Service Worker: Message received"]) ++
                   [CachesMatch (resolve_url P "./index.html")]) ++
                  [PostMessage p [("cached", JsBool false); ("ready", JsBool true);
                                  ("mode", JsString "offline")]] |}, false.
    split; [reflexivity|]. simpl. rewrite <- !app_assoc.
    repeat split; try reflexivity; try discriminate.
    intros [? ?]. discriminate.
Qed.

Lemma cache_status_reply_witness :
  (∃ w' (cached : bool),
      PolicyB.on_message Demo.Online Demo.CACHE_STATUS Demo.dynamic_only
      = (Fulfilled tt, w')
      /\ trace w' = trace Demo.dynamic_only
                    ++ [ConsoleLog "Service Worker: Message received";
                        CachesMatch (resolve_url Demo.Online "./index.html");
                        PostMessage 7 [("cached", JsBool cached);
                                       ("ready", JsBool true);
                                       ("mode", JsString "offline")]]
      /\ (cached = true <->
          is_Some (storage_lookup (caches Demo.dynamic_only)
                     (resolve_url Demo.Online "./index.html")))
      /\ caches w' = caches Demo.dynamic_only)
  /\ PolicyA.on_message Demo.CACHE_STATUS Demo.dynamic_only =
       (Fulfilled tt,
        {| caches := caches Demo.dynamic_only;
           consumed := consumed Demo.dynamic_only;
           next_stream := next_stream Demo.dynamic_only;
           trace := trace Demo.dynamic_only
                    ++ [ConsoleLog "Service Worker: Message received"] |}).
Proof.
  apply (cache_status_reply Demo.Online Demo.CACHE_STATUS
           [("type", JsString "CACHE_STATUS")] 7%nat [] Demo.dynamic_only);
    reflexivity.
Defined.

(** ** Further behaviour of the fetch router *)

Lemma storage_lookup_after_put (name u : string) (d : Snapshot) (cs : CacheStorage) :
  storage_lookup cs u = None ->
  has_cache name cs = true ->
  storage_lookup (storage_put name u d cs) u = Some d.
Proof.
  unfold has_cache, storage_put.
  induction cs as [|[n c] cs IH]; simpl; [discriminate|].
  destruct (c !! u) eqn:Ec; [discriminate|]. intros Hl.
  destruct (String.eqb n name) eqn:E; simpl.
  - intros _. by rewrite lookup_insert_eq.
  - intros H. rewrite Ec. by apply IH.
Qed.

(** The run of Policy A on a cache miss answered by a status 200 basic
    response. *)
Lemma miss_run_A (P : Platform) (req : Request) (w : World) (d : Snapshot) :
  method req = "GET" ->
  same_origin (location_origin P) req ->
  storage_lookup (caches w) (url req) = None ->
  network P (url req) = Some d ->
  status d = 200 -> rtype d = TBasic ->
  streams_ok w ->
  PolicyA.on_fetch P req w =
    (RespondWith (Fulfilled (Some {| resp_data := d; resp_stream := next_stream w |})),
     after_store_copy P PolicyA.DYNAMIC_CACHE
       "Service Worker: Caching dynamic content"
       "Service Worker: Failed to cache dynamic content" req
       {| resp_data := d; resp_stream := S (next_stream w) |}
       {| caches := caches w; consumed := consumed w;
          next_stream := S (S (next_stream w));
          trace := trace w ++ [CachesMatch (url req); NetFetch (url req);
                               BodyClone (next_stream w) (S (next_stream w))] |}).
Proof.
  intros Hm Ho Hmiss Hnet Hs Ht Hok.
  destruct (guard_passes P req Hm Ho) as [G1 G2].
  pose proof (fresh_stream_unread w 0 Hok) as Hf0.
  pose proof (fresh_stream_unread w 1 Hok) as Hf1.
  rewrite Nat.add_0_r in Hf0. rewrite Nat.add_1_r in Hf1.
  unfold PolicyA.on_fetch. rewrite G1, G2.
  unfold PolicyA.respond, bind at 1. rewrite (caches_match_miss _ _ Hmiss).
  unfold catch, bind at 1. rewrite (fetch_succeeds _ _ _ _ Hnet).
  cbn [next_stream caches consumed trace].
  rewrite (cacheable_200_basic _ _ Hs Ht).
  unfold bind at 1. rewrite clone_unread by exact Hf0.
  cbn [next_stream caches consumed trace resp_stream resp_data].
  unfold bind at 1. rewrite store_copy_A, store_copy_run by exact Hf1.
  unfold ret. rewrite <- !app_assoc. reflexivity.
Qed.

Lemma miss_run_B (P : Platform) (req : Request) (w : World) (d : Snapshot) :
  method req = "GET" ->
  same_origin (location_origin P) req ->
  storage_lookup (caches w) (url req) = None ->
  network P (url req) = Some d ->
  status d = 200 -> rtype d = TBasic ->
  streams_ok w ->
  ∃ l : list Effect,
    PolicyB.on_fetch P req w =
      (RespondWith (Fulfilled (Some {| resp_data := d; resp_stream := next_stream w |})),
       after_store_copy P PolicyB.STATIC_CACHE
         "Service Worker: Caching new content"
         "Service Worker: Failed to cache new content" req
         {| resp_data := d; resp_stream := S (next_stream w) |}
         {| caches := caches w; consumed := consumed w;
            next_stream := S (S (next_stream w));
            trace := trace w ++ [CachesMatch (url req)] ++ l
                     ++ [NetFetch (url req);
                         BodyClone (next_stream w) (S (next_stream w))] |}).
Proof.
  intros Hm Ho Hmiss Hnet Hs Ht Hok.
  destruct (guard_passes P req Hm Ho) as [G1 G2].
  pose proof (fresh_stream_unread w 0 Hok) as Hf0.
  pose proof (fresh_stream_unread w 1 Hok) as Hf1.
  rewrite Nat.add_0_r in Hf0. rewrite Nat.add_1_r in Hf1.
  destruct (log_offline_mode_effect P req
              {| caches := caches w; consumed := consumed w;
                 next_stream := next_stream w;
                 trace := trace w ++ [CachesMatch (url req)] |})
    as (l & El & _).
  exists l.
  unfold PolicyB.on_fetch. rewrite G1, G2, (caches_match_miss _ _ Hmiss), El.
  unfold PolicyB.after_match, bind at 1.
  unfold catch, bind at 1. rewrite (fetch_succeeds _ _ _ _ Hnet).
  cbn [next_stream caches consumed trace].
  rewrite (cacheable_200_basic _ _ Hs Ht).
  unfold bind at 1. rewrite clone_unread by exact Hf0.
  cbn [next_stream caches consumed trace resp_stream resp_data].
  unfold bind at 1. rewrite store_copy_B, store_copy_run by exact Hf1.
  unfold ret. rewrite <- !app_assoc. reflexivity.
Qed.

Lemma lookup_after_store_copy (P : Platform) (name m_ok m_err : string)
    (req : Request) (c : Response) (w : World) :
  open_ok P name = true -> put_ok P name (url req) = true ->
  storage_lookup (caches w) (url req) = None ->
  storage_lookup (caches (after_store_copy P name m_ok m_err req c w)) (url req)
  = Some (resp_data c).
Proof.
  intros Ho Hp Hl. unfold after_store_copy. rewrite Ho, Hp. simpl.
  apply storage_lookup_after_put; [|apply has_cache_after_open].
  by rewrite storage_lookup_after_open.
Qed.

(** X1. Write then read: once a cache miss has been answered from the
    network with a status 200 basic response and the store has taken the
    copy, the same request is a cache hit; it is answered with the bytes the
    network gave, without a fetch, whatever the network has become (Policy A
    through the dynamic generation, Policy B through the static one). *)
Theorem stored_response_answers_next_request
    (P P' : Platform) (req : Request) (w : World) (d : Snapshot) :
  method req = "GET" ->
  same_origin (location_origin P) req ->
  same_origin (location_origin P') req ->
  storage_lookup (caches w) (url req) = None ->
  network P (url req) = Some d ->
  status d = 200 -> rtype d = TBasic ->
  streams_ok w ->
  (open_ok P PolicyA.DYNAMIC_CACHE = true ->
   put_ok P PolicyA.DYNAMIC_CACHE (url req) = true ->
   served_from_store (PolicyA.on_fetch P') req (snd (PolicyA.on_fetch P req w)) d)
  /\ (open_ok P PolicyB.STATIC_CACHE = true ->
      put_ok P PolicyB.STATIC_CACHE (url req) = true ->
      served_from_store (PolicyB.on_fetch P') req (snd (PolicyB.on_fetch P req w)) d).
Proof.
  intros Hm Ho Ho' Hmiss Hnet Hs Ht Hok. split; intros Hopen Hput.
  - rewrite (miss_run_A P req w d Hm Ho Hmiss Hnet Hs Ht Hok). cbn [snd].
    apply (served_on_hit P' req _ d Hm Ho').
    by rewrite lookup_after_store_copy.
  - destruct (miss_run_B P req w d Hm Ho Hmiss Hnet Hs Ht Hok) as [l ->]. cbn [snd].
    apply (served_on_hit P' req _ d Hm Ho').
    by rewrite lookup_after_store_copy.
Qed.

Lemma stored_response_answers_next_request_witness :
  served_from_store (PolicyA.on_fetch Demo.Offline) Demo.script
    (snd (PolicyA.on_fetch Demo.Online Demo.script Demo.empty)) (Demo.page "js")
  /\ served_from_store (PolicyB.on_fetch Demo.Offline) Demo.script
       (snd (PolicyB.on_fetch Demo.Online Demo.script Demo.empty)) (Demo.page "js").
Proof.
  destruct (stored_response_answers_next_request Demo.Online Demo.Offline
              Demo.script Demo.empty (Demo.page "js")
              eq_refl eq_refl eq_refl eq_refl eq_refl eq_refl eq_refl) as [HA HB].
  - intros s Hs. by apply elem_of_nil in Hs.
  - split; [apply HA | apply HB]; reflexivity.
Defined.

Lemma not_cacheable_other (d : Snapshot) (s : nat) :
  status d ≠ 200 \/ rtype d ≠ TBasic ->
  not_cacheable {| resp_data := d; resp_stream := s |} = true.
Proof.
  intros H. unfold not_cacheable. simpl.
  destruct (Z.eqb_spec (status d) 200) as [E|E]; simpl; [|reflexivity].
  destruct H as [H|H]; [contradiction|].
  by rewrite bool_decide_eq_false_2.
Qed.

(** X2. A response the guard of lines 84 and 276 turns away (a status other
    than 200, or a type other than basic, such as an opaque or a cors
    response) is handed to the caller as the network gave it: it is not
    cloned, nothing is written to the store, and no body is read. *)
Theorem uncacheable_response_passed_through
    (P : Platform) (req : Request) (w : World) (d : Snapshot) :
  method req = "GET" ->
  same_origin (location_origin P) req ->
  storage_lookup (caches w) (url req) = None ->
  network P (url req) = Some d ->
  status d ≠ 200 \/ rtype d ≠ TBasic ->
  passed_through (PolicyA.on_fetch P) req w d
  /\ passed_through (PolicyB.on_fetch P) req w d.
Proof.
  intros Hm Ho Hmiss Hnet Hd.
  destruct (guard_passes P req Hm Ho) as [G1 G2].
  unfold passed_through. split.
  - unfold PolicyA.on_fetch. rewrite G1, G2.
    unfold PolicyA.respond, bind at 1. rewrite (caches_match_miss _ _ Hmiss).
    unfold catch, bind at 1. rewrite (fetch_succeeds _ _ _ _ Hnet).
    cbn [next_stream caches consumed trace].
    rewrite (not_cacheable_other _ _ Hd). unfold ret.
    do 3 eexists. split; [reflexivity|]. simpl. rewrite <- !app_assoc.
    repeat split; reflexivity.
  - destruct (log_offline_mode_effect P req
                {| caches := caches w; consumed := consumed w;
                   next_stream := next_stream w;
                   trace := trace w ++ [CachesMatch (url req)] |})
      as (l & El & Hl).
    unfold PolicyB.on_fetch. rewrite G1, G2, (caches_match_miss _ _ Hmiss), El.
    unfold PolicyB.after_match, bind at 1.
    unfold catch, bind at 1. rewrite (fetch_succeeds _ _ _ _ Hnet).
    cbn [next_stream caches consumed trace].
    rewrite (not_cacheable_other _ _ Hd). unfold ret.
    do 3 eexists. split; [reflexivity|]. simpl. rewrite <- !app_assoc.
    repeat split; try reflexivity; destruct Hl as [-> | ->]; reflexivity.
Qed.

Lemma uncacheable_response_passed_through_witness :
  passed_through (PolicyA.on_fetch Scenario.Missing) Scenario.gone Demo.empty
    Scenario.not_found
  /\ passed_through (PolicyB.on_fetch Scenario.Missing) Scenario.gone Demo.empty
       Scenario.not_found.
Proof.
  apply (uncacheable_response_passed_through Scenario.Missing Scenario.gone
           Demo.empty Scenario.not_found); try reflexivity.
  left. discriminate.
Defined.

Lemma string_eqb_false (a b : string) : a ≠ b -> String.eqb a b = false.
Proof. intros H. by apply String.eqb_neq. Qed.

(** X3. When the store lacks the request, the fetch fails and the request is
    not a navigation, both policies let the failure through: the promise
    given to [respondWith] rejects with the failure of the fetch, the root
    document is not looked up, and the store is left as it was. *)
Theorem subresource_failure_rethrown (P : Platform) (req : Request) (w : World) :
  method req = "GET" ->
  same_origin (location_origin P) req ->
  destination req ≠ "document" ->
  storage_lookup (caches w) (url req) = None ->
  network P (url req) = None ->
  rethrown (PolicyA.on_fetch P) req w /\ rethrown (PolicyB.on_fetch P) req w.
Proof.
  intros Hm Ho Hdoc Hmiss Hnet.
  destruct (guard_passes P req Hm Ho) as [G1 G2].
  unfold rethrown. split.
  - unfold PolicyA.on_fetch. rewrite G1, G2.
    unfold PolicyA.respond, bind at 1. rewrite (caches_match_miss _ _ Hmiss).
    unfold catch, bind at 1. rewrite fetch_fails by exact Hnet.
    rewrite (string_eqb_false _ _ Hdoc). run.
    do 2 eexists. split; [reflexivity|]. simpl. rewrite <- !app_assoc.
    repeat split; reflexivity.
  - destruct (log_offline_mode_effect P req
                {| caches := caches w; consumed := consumed w;
                   next_stream := next_stream w;
                   trace := trace w ++ [CachesMatch (url req)] |})
      as (l & El & Hl).
    unfold PolicyB.on_fetch. rewrite G1, G2, (caches_match_miss _ _ Hmiss), El.
    unfold PolicyB.after_match, bind at 1.
    unfold catch, bind at 1. rewrite fetch_fails by exact Hnet.
    rewrite (string_eqb_false _ _ Hdoc). run.
    do 2 eexists. split; [reflexivity|]. simpl. rewrite <- !app_assoc.
    repeat split; try reflexivity; destruct Hl as [-> | ->]; reflexivity.
Qed.

Lemma subresource_failure_rethrown_witness :
  rethrown (PolicyA.on_fetch Demo.Offline) Demo.script Demo.empty
  /\ rethrown (PolicyB.on_fetch Demo.Offline) Demo.script Demo.empty.
Proof.
  apply (subresource_failure_rethrown Demo.Offline Demo.script Demo.empty);
    try reflexivity.
  discriminate.
Defined.

(** X4. Under Policy B a navigation that misses the store while the network
    is down is answered with the cached root document when the store has it:
    the caller gets the entry stored for [./index.html], exactly one fetch
    was tried, and the offline page is not synthesized. *)
Theorem cached_root_answers_navigation_B
    (P : Platform) (req : Request) (w : World) (d : Snapshot) :
  method req = "GET" ->
  same_origin (location_origin P) req ->
  destination req = "document" ->
  storage_lookup (caches w) (url req) = None ->
  network P (url req) = None ->
  storage_lookup (caches w) (resolve_url P "./index.html") = Some d ->
  ∃ w' (added : list Effect),
    PolicyB.on_fetch P req w =
      (RespondWith (Fulfilled (Some {| resp_data := d; resp_stream := next_stream w |})),
       w')
    /\ trace w' = trace w ++ added
    /\ network_calls added = 1%nat
    /\ store_lookups added = 2%nat
    /\ store_writes added = 0%nat
    /\ caches w' = caches w.
Proof.
  intros Hm Ho Hdoc Hmiss Hnet Hroot.
  destruct (guard_passes P req Hm Ho) as [G1 G2].
  unfold PolicyB.on_fetch. rewrite G1, G2, (caches_match_miss _ _ Hmiss).
  destruct (log_offline_mode_effect P req
              {| caches := caches w; consumed := consumed w;
                 next_stream := next_stream w;
                 trace := trace w ++ [CachesMatch (url req)] |})
    as (l & -> & Hl).
  unfold PolicyB.after_match, bind at 1, catch, bind at 1.
  rewrite fetch_fails by exact Hnet.
  rewrite (string_eqb_true _ _ Hdoc).
  unfold bind at 1, console_log, emit at 1. cbn iota beta.
  unfold bind at 1. rewrite caches_match_hit with (d := d) by exact Hroot.
  run. do 2 eexists. split; [reflexivity|]. simpl. rewrite <- !app_assoc.
  repeat split; try reflexivity; destruct Hl as [-> | ->]; reflexivity.
Qed.

Lemma cached_root_answers_navigation_B_witness :
  ∃ w' (added : list Effect),
    PolicyB.on_fetch Demo.Offline Demo.navigation Scenario.root_cached =
      (RespondWith (Fulfilled (Some {| resp_data := Demo.page "index";
                                       resp_stream := 0 |})), w')
    /\ trace w' = trace Scenario.root_cached ++ added
    /\ network_calls added = 1%nat
    /\ store_lookups added = 2%nat
    /\ store_writes added = 0%nat
    /\ caches w' = caches Scenario.root_cached.
Proof.
  apply (cached_root_answers_navigation_B Demo.Offline Demo.navigation
           Scenario.root_cached (Demo.page "index")); reflexivity.
Defined.

(** X5. The guard never turns away a GET to the worker's own origin: both
    policies call [respondWith] for it, whatever the store and the network
    hold. *)
Theorem same_origin_get_is_intercepted (P : Platform) (req : Request) (w : World) :
  method req = "GET" ->
  same_origin (location_origin P) req ->
  (∃ o w', PolicyA.on_fetch P req w = (RespondWith o, w'))
  /\ (∃ o w', PolicyB.on_fetch P req w = (RespondWith o, w')).
Proof.
  intros Hm Ho. destruct (guard_passes P req Hm Ho) as [G1 G2]. split.
  - unfold PolicyA.on_fetch. rewrite G1, G2.
    destruct (PolicyA.respond P req w) as [o w']. by do 2 eexists.
  - unfold PolicyB.on_fetch. rewrite G1, G2.
    destruct (caches_match (url req) w) as [looked_up w1].
    match goal with |- context [bind ?p ?f ?x] => destruct (bind p f x) as [o w2] end.
    by do 2 eexists.
Qed.

Lemma same_origin_get_is_intercepted_witness :
  (∃ o w', PolicyA.on_fetch Demo.Offline Demo.script Demo.empty = (RespondWith o, w'))
  /\ (∃ o w', PolicyB.on_fetch Demo.Offline Demo.script Demo.empty = (RespondWith o, w')).
Proof.
  apply (same_origin_get_is_intercepted Demo.Offline Demo.script Demo.empty);
    reflexivity.
Defined.

Lemma on_fetch_wrote_at_most_A (P : Platform) (req : Request) (w : World) :
  wrote_at_most PolicyA.DYNAMIC_CACHE (url req) (caches w)
    (caches (snd (PolicyA.on_fetch P req w))).
Proof.
  unfold PolicyA.on_fetch, PolicyA.respond, PolicyA.cache_dynamic, caches_match,
    fetch, response_clone, caches_open, cache_put, wrote_at_most.
  branches; eauto.
Qed.

Lemma on_fetch_wrote_at_most_B (P : Platform) (req : Request) (w : World) :
  wrote_at_most PolicyB.STATIC_CACHE (url req) (caches w)
    (caches (snd (PolicyB.on_fetch P req w))).
Proof.
  unfold PolicyB.on_fetch, PolicyB.after_match, PolicyB.cache_new_content,
    PolicyB.log_offline_mode, caches_match, fetch, response_clone, caches_open,
    cache_put, wrote_at_most.
  branches; eauto.
Qed.

Lemma find_in_app (f : string * gmap string Snapshot -> bool) (cs l : CacheStorage) :
  List.find f (cs ++ l)
  = match List.find f cs with Some p => Some p | None => List.find f l end.
Proof.
  induction cs as [|q cs IH]; simpl; [reflexivity|].
  destruct (f q); [reflexivity | exact IH].
Qed.

Lemma cache_entry_after_open (name n u : string) (cs : CacheStorage) :
  cache_entry n u (storage_open name cs) = cache_entry n u cs.
Proof.
  unfold storage_open. destruct (has_cache name cs); [reflexivity|].
  unfold cache_entry. rewrite find_in_app.
  destruct (List.find (fun p => String.eqb (fst p) n) cs); [reflexivity|].
  simpl. destruct (String.eqb name n); [apply lookup_empty | reflexivity].
Qed.

Lemma cache_entry_put_other (name v n u : string) (d : Snapshot) (cs : CacheStorage) :
  n ≠ name \/ u ≠ v ->
  cache_entry n u (storage_put name v d cs) = cache_entry n u cs.
Proof.
  intros H. unfold cache_entry, storage_put.
  induction cs as [|[m c] cs IH]; simpl; [reflexivity|].
  destruct (String.eqb_spec m name) as [->|Hm]; simpl.
  - destruct (String.eqb_spec name n) as [<-|Hn]; simpl; [|exact IH].
    destruct H as [H|H]; [contradiction|]. by apply lookup_insert_ne.
  - destruct (String.eqb m n); [reflexivity | exact IH].
Qed.

Lemma cache_entry_put_kept (name v n u : string) (d : Snapshot) (cs : CacheStorage) :
  is_Some (cache_entry n u cs) ->
  is_Some (cache_entry n u (storage_put name v d cs)).
Proof.
  unfold cache_entry, storage_put.
  induction cs as [|[m c] cs IH]; simpl; [trivial|].
  destruct (String.eqb_spec m name) as [->|Hm]; simpl.
  - destruct (String.eqb_spec name n) as [<-|Hn]; simpl; [|exact IH].
    intros Hs. destruct (decide (v = u)) as [->|Hne].
    + rewrite lookup_insert_eq. by eexists.
    + by rewrite lookup_insert_ne.
  - destruct (String.eqb m n); [trivial | exact IH].
Qed.

Lemma wrote_at_most_frame (name v n u : string) (cs cs' : CacheStorage) :
  wrote_at_most name v cs cs' ->
  (n ≠ name \/ u ≠ v -> cache_entry n u cs' = cache_entry n u cs)
  /\ (is_Some (cache_entry n u cs) -> is_Some (cache_entry n u cs')).
Proof.
  intros [-> | [-> | [d ->]]].
  - split; [reflexivity | trivial].
  - rewrite cache_entry_after_open. split; [reflexivity | trivial].
  - split.
    + intros H. by rewrite cache_entry_put_other, cache_entry_after_open.
    + intros H. apply cache_entry_put_kept. by rewrite cache_entry_after_open.
Qed.

(** X6. Whatever the request, the store and the network are, a fetch event
    changes at most one entry of the store: the one for the request's URL in
    the generation the policy writes to (dynamic under Policy A, static
    under Policy B).  Every other entry of every generation reads as before,
    and no entry that was present is lost. *)
Theorem fetch_touches_only_the_requested_entry
    (P : Platform) (req : Request) (w : World) (n u : string) :
  ((n ≠ PolicyA.DYNAMIC_CACHE \/ u ≠ url req ->
    cache_entry n u (caches (snd (PolicyA.on_fetch P req w)))
    = cache_entry n u (caches w))
   /\ (is_Some (cache_entry n u (caches w)) ->
       is_Some (cache_entry n u (caches (snd (PolicyA.on_fetch P req w))))))
  /\
  ((n ≠ PolicyB.STATIC_CACHE \/ u ≠ url req ->
    cache_entry n u (caches (snd (PolicyB.on_fetch P req w)))
    = cache_entry n u (caches w))
   /\ (is_Some (cache_entry n u (caches w)) ->
       is_Some (cache_entry n u (caches (snd (PolicyB.on_fetch P req w)))))).
Proof.
  split.
  - apply wrote_at_most_frame, on_fetch_wrote_at_most_A.
  - apply wrote_at_most_frame, on_fetch_wrote_at_most_B.
Qed.

Lemma fetch_touches_only_the_requested_entry_witness :
  cache_entry "better-yourself-static-v1" "https://a.com/app/index.html"
    (caches (snd (PolicyA.on_fetch Demo.Online Demo.script Scenario.root_cached)))
  = Some (Demo.page "index")
  /\ cache_entry "better-yourself-static-v1" "https://a.com/app/index.html"
       (caches (snd (PolicyB.on_fetch Demo.Online Demo.script Scenario.root_cached)))
     = Some (Demo.page "index").
Proof.
  destruct (fetch_touches_only_the_requested_entry Demo.Online Demo.script
              Scenario.root_cached "better-yourself-static-v1"
              "https://a.com/app/index.html") as [[HA _] [HB _]].
  split.
  - rewrite HA; [reflexivity | right; discriminate].
  - rewrite HB; [reflexivity | right; discriminate].
Defined.

(** ** Cleanup at install time *)

Lemma delete_all (ns : list string) (w : World) :
  ∃ bs,
    promise_all caches_delete ns w =
      (Fulfilled bs,
       {| caches := List.filter (fun p => negb (existsb (String.eqb (fst p)) ns))
                      (caches w);
          consumed := consumed w;
          next_stream := next_stream w;
          trace := trace w ++ List.map CachesDelete ns |}).
Proof.
  revert w. induction ns as [|n ns IH]; intros w.
  - exists []. simpl. unfold ret. f_equal. destruct w as [cs ? ? t]; simpl.
    f_equal; [| by rewrite app_nil_r].
    induction cs as [|p cs IHcs]; simpl; [reflexivity|]. by f_equal.
  - simpl. unfold caches_delete at 1. run.
    edestruct IH as [bs ->]. eexists. simpl.
    pose proof (filter_after_delete (fun _ => true) n ns (caches w) eq_refl) as F.
    simpl in F. rewrite F. f_equal. f_equal. by rewrite <- !app_assoc.
Qed.

Lemma existsb_in_filtered (old : string -> bool) (p : string * gmap string Snapshot)
    (cs : CacheStorage) :
  In p cs ->
  existsb (String.eqb (fst p)) (List.filter old (List.map fst cs)) = old (fst p).
Proof.
  intros Hin. destruct (old (fst p)) eqn:E.
  - apply existsb_exists. exists (fst p). split; [|apply String.eqb_refl].
    apply filter_In. split; [by apply in_map | exact E].
  - apply not_true_is_false. intros H.
    apply existsb_exists in H as (x & Hx & Heq).
    apply String.eqb_eq in Heq. subst x.
    apply filter_In in Hx as [_ Hx]. congruence.
Qed.

Lemma cleanupCaches_run (w : World) :
  ∃ bs,
    PolicyA.cleanupCaches w =
      (Fulfilled bs,
       {| caches := List.filter (fun p => negb (PolicyA.is_old (fst p))) (caches w);
          consumed := consumed w;
          next_stream := next_stream w;
          trace := trace w
                   ++ CachesKeys
                      :: List.map CachesDelete
                           (List.filter PolicyA.is_old (List.map fst (caches w))) |}).
Proof.
  unfold PolicyA.cleanupCaches, caches_keys. run.
  edestruct (delete_all (List.filter PolicyA.is_old (List.map fst (caches w))))
    as [bs ->].
  exists bs. simpl. f_equal. f_equal.
  - apply List.filter_ext_in. intros p Hin. by rewrite existsb_in_filtered.
  - by rewrite <- !app_assoc.
Qed.

Lemma deleted_names_deletes (ns : list string) :
  deleted_names (List.map CachesDelete ns) = ns.
Proof. induction ns as [|n ns IH]; simpl; by rewrite ?IH. Qed.

(** X7. [cleanupCaches] (lines 175-186), which filters the names first and
    then deletes, ends with the same store as the activation listener of
    Policy A, which deletes while it maps: it fulfils, asks the store to
    delete exactly the generations named neither static nor dynamic, in the
    order of [caches.keys()], and keeps the two current ones with their
    entries. *)
Theorem cleanupCaches_agrees_with_activation (w : World) :
  ∃ bs w' (t : list Effect),
    PolicyA.cleanupCaches w = (Fulfilled bs, w')
    /\ trace w' = trace w ++ t
    /\ deleted_names t
       = List.filter
           (fun n => negb (kept [PolicyA.STATIC_CACHE; PolicyA.DYNAMIC_CACHE] n))
           (List.map fst (caches w))
    /\ caches w'
       = List.filter
           (fun p => kept [PolicyA.STATIC_CACHE; PolicyA.DYNAMIC_CACHE] (fst p))
           (caches w)
    /\ caches w' = caches (snd (PolicyA.on_activate w)).
Proof.
  destruct (cleanupCaches_run w) as [bs Hrun].
  do 3 eexists. split; [exact Hrun|]. simpl.
  assert (Hf : ∀ cs : CacheStorage,
             List.filter (fun p => negb (PolicyA.is_old (fst p))) cs
             = List.filter
                 (fun p => kept [PolicyA.STATIC_CACHE; PolicyA.DYNAMIC_CACHE] (fst p)) cs).
  { intros cs. apply List.filter_ext. intros p.
    by rewrite is_old_A, negb_involutive. }
  split; [reflexivity|]. split.
  { simpl. rewrite deleted_names_deletes. apply List.filter_ext, is_old_A. }
  split; [apply Hf|].
  rewrite activation_A, activation_run. reflexivity.
Qed.


(** ** A successful install *)

Lemma addAll_entries_ok (P : Platform) (name : string) (us : list string) :
  existsb (fun u => negb (storable P name u)) us = false ->
  ∃ es, addAll_entries P name us = Fulfilled es
        /\ List.map fst es = us
        /\ (∀ e, In e es -> network P (fst e) = Some (snd e)).
Proof.
  induction us as [|u us IH]; simpl.
  - intros _. exists []. split; [reflexivity|]. split; [reflexivity|]. intros e [].
  - intros H. apply orb_false_iff in H as [Hu H].
    apply negb_false_iff in Hu. unfold storable in Hu. unfold addAll_entry.
    destruct (network P u) as [d|] eqn:En; [|discriminate].
    apply andb_true_iff in Hu as [Hok Hput]. rewrite Hok, Hput.
    destruct (IH H) as (es & -> & Hm & He).
    exists ((u, d) :: es). simpl. split; [reflexivity|]. split; [by rewrite Hm|].
    intros e [<- | Hin]; [exact En | by apply He].
Qed.

Lemma addAll_fulfils (P : Platform) (name : string) (rels : list string)
    (es : list (string * Snapshot)) (w : World) :
  addAll_entries P name (List.map (resolve_url P) rels) = Fulfilled es ->
  cache_addAll P name rels w =
    (Fulfilled tt,
     {| caches := storage_put_all name es (caches w);
        consumed := consumed w; next_stream := next_stream w;
        trace := trace w
                 ++ [CacheAddAll name (List.map (resolve_url P) rels)]
                 ++ List.map NetFetch (List.map (resolve_url P) rels) |}).
Proof.
  intros He. unfold cache_addAll. cbv zeta. unfold bind at 1, emit at 1.
  unfold bind at 1.
  edestruct (fetches_run (List.map (resolve_url P) rels)) as [bs ->].
  rewrite He. run. by rewrite <- !app_assoc.
Qed.

Lemma holds_after_put (name u : string) (d : Snapshot) (cs : CacheStorage) :
  holds_at name u d (storage_put name u d cs) = true.
Proof.
  unfold holds_at, storage_put.
  induction cs as [|[m c] cs IH]; simpl; [reflexivity|].
  rewrite IH, andb_true_r.
  destruct (String.eqb m name) eqn:E; simpl; rewrite E; simpl; [|reflexivity].
  apply bool_decide_eq_true_2, lookup_insert_eq.
Qed.

Lemma holds_put_other (name u v : string) (d d' : Snapshot) (cs : CacheStorage) :
  u ≠ v ->
  holds_at name u d cs = true ->
  holds_at name u d (storage_put name v d' cs) = true.
Proof.
  intros Hne. unfold holds_at, storage_put.
  induction cs as [|[m c] cs IH]; simpl; [reflexivity|].
  intros H. apply andb_true_iff in H as [Hh H]. rewrite (IH H), andb_true_r.
  simpl in Hh.
  destruct (String.eqb m name) eqn:E; simpl; rewrite E; simpl in *; [|reflexivity].
  rewrite ?E in Hh. simpl in Hh. apply bool_decide_eq_true in Hh.
  apply bool_decide_eq_true_2. by rewrite lookup_insert_ne.
Qed.

Lemma holds_after_put_all (P : Platform) (name u : string) (d : Snapshot)
    (es : list (string * Snapshot)) (cs : CacheStorage) :
  (∀ e, In e es -> network P (fst e) = Some (snd e)) ->
  network P u = Some d ->
  holds_at name u d cs = true \/ In u (List.map fst es) ->
  holds_at name u d (storage_put_all name es cs) = true.
Proof.
  intros Hnet Hd. unfold storage_put_all.
  revert cs. induction es as [|[v d'] es IH]; intros cs H; simpl.
  - destruct H as [H | []]. exact H.
  - apply IH; [intros e He; apply Hnet; by right|].
    destruct (decide (v = u)) as [->|Hne].
    + left. assert (d' = d) as ->.
      { pose proof (Hnet (u, d') (or_introl eq_refl)) as E. simpl in E. congruence. }
      apply holds_after_put.
    + destruct H as [H | [H | H]].
      * left. apply holds_put_other; [congruence | exact H].
      * simpl in H. congruence.
      * by right.
Qed.

Lemma has_cache_after_put (n name v : string) (d : Snapshot) (cs : CacheStorage) :
  has_cache n (storage_put name v d cs) = has_cache n cs.
Proof.
  unfold has_cache, storage_put.
  induction cs as [|[m c] cs IH]; simpl; [reflexivity|].
  rewrite IH. by destruct (String.eqb m name).
Qed.

Lemma has_cache_after_put_all (n name : string) (es : list (string * Snapshot))
    (cs : CacheStorage) :
  has_cache n (storage_put_all name es cs) = has_cache n cs.
Proof.
  unfold storage_put_all. revert cs.
  induction es as [|e es IH]; intros cs; simpl; [reflexivity|].
  by rewrite IH, has_cache_after_put.
Qed.

Lemma cache_entry_of_holds (name u : string) (d : Snapshot) (cs : CacheStorage) :
  holds_at name u d cs = true -> has_cache name cs = true ->
  cache_entry name u cs = Some d.
Proof.
  unfold holds_at, has_cache, cache_entry.
  induction cs as [|[m c] cs IH]; simpl; [discriminate|].
  intros H. apply andb_true_iff in H as [Hh H].
  destruct (String.eqb m name); simpl in *.
  - intros _. by apply bool_decide_eq_true in Hh.
  - by apply IH.
Qed.

Lemma cache_entry_filter (keep : string -> bool) (n u : string) (cs : CacheStorage) :
  keep n = true ->
  cache_entry n u (List.filter (fun p => keep (fst p)) cs) = cache_entry n u cs.
Proof.
  intros Hk. unfold cache_entry.
  induction cs as [|[m c] cs IH]; simpl; [reflexivity|].
  destruct (String.eqb_spec m n) as [->|Hne].
  - rewrite Hk. simpl. by rewrite String.eqb_refl.
  - destruct (keep m); simpl; [|exact IH].
    by rewrite (string_eqb_false _ _ Hne).
Qed.

(** The chain [caches.open(name).then(cache => cache.addAll(files))] when
    the store opens and every manifest entry can be fetched and stored. *)
Lemma open_addAll_fulfils (P : Platform) (name : string) (files : list string)
    (es : list (string * Snapshot)) (w : World) :
  open_ok P name = true ->
  addAll_entries P name (List.map (resolve_url P) files) = Fulfilled es ->
  (cache <- caches_open P name ;; cache_addAll P cache files) w =
    (Fulfilled tt,
     {| caches := storage_put_all name es (storage_open name (caches w));
        consumed := consumed w; next_stream := next_stream w;
        trace := trace w
                 ++ [CachesOpen name;
                     CacheAddAll name (List.map (resolve_url P) files)]
                 ++ List.map NetFetch (List.map (resolve_url P) files) |}).
Proof.
  intros Ho He. unfold bind at 1. rewrite caches_open_ok by exact Ho.
  rewrite (addAll_fulfils P name files es _ He). simpl.
  by rewrite <- !app_assoc.
Qed.

Lemma manifest_ok_A (P : Platform) :
  manifest_fails_A P = false ->
  open_ok P PolicyA.STATIC_CACHE = true
  /\ ∃ es, addAll_entries P PolicyA.STATIC_CACHE
             (List.map (resolve_url P) PolicyA.STATIC_FILES) = Fulfilled es
           /\ List.map fst es = List.map (resolve_url P) PolicyA.STATIC_FILES
           /\ (∀ e, In e es -> network P (fst e) = Some (snd e)).
Proof.
  unfold manifest_fails_A. intros H. apply orb_false_iff in H as [Ho H].
  apply negb_false_iff in Ho. split; [exact Ho|]. by apply addAll_entries_ok.
Qed.

Lemma manifest_ok_B (P : Platform) :
  manifest_fails_B P = false ->
  open_ok P PolicyB.STATIC_CACHE = true
  /\ ∃ es, addAll_entries P PolicyB.STATIC_CACHE
             (List.map (resolve_url P) PolicyB.STATIC_FILES) = Fulfilled es
           /\ List.map fst es = List.map (resolve_url P) PolicyB.STATIC_FILES
           /\ (∀ e, In e es -> network P (fst e) = Some (snd e)).
Proof.
  unfold manifest_fails_B. intros H. apply orb_false_iff in H as [Ho H].
  apply negb_false_iff in Ho. split; [exact Ho|]. by apply addAll_entries_ok.
Qed.

Lemma log_skip_run (msg : string) (w : World) :
  (console_log msg ;; skipWaiting) w =
    (Fulfilled tt,
     {| caches := caches w; consumed := consumed w; next_stream := next_stream w;
        trace := trace w ++ [ConsoleLog msg; SkipWaiting] |}).
Proof.
  unfold bind, console_log, skipWaiting, emit. simpl.
  by rewrite <- app_assoc.
Qed.

(** The first install listener of Policy A when the manifest can be fetched
    and stored. *)
Lemma install_promise_fulfils_A (P : Platform) (es : list (string * Snapshot))
    (w : World) :
  open_ok P PolicyA.STATIC_CACHE = true ->
  addAll_entries P PolicyA.STATIC_CACHE
    (List.map (resolve_url P) PolicyA.STATIC_FILES) = Fulfilled es ->
  (console_log "Service Worker: Installing..." ;; PolicyA.install_promise P) w =
    (Fulfilled tt,
     {| caches := storage_put_all PolicyA.STATIC_CACHE es
                    (storage_open PolicyA.STATIC_CACHE (caches w));
        consumed := consumed w; next_stream := next_stream w;
        trace := trace w
                 ++ [ConsoleLog "Service Worker: Installing...";
                     CachesOpen PolicyA.STATIC_CACHE;
                     ConsoleLog "Service Worker: Caching static files";
                     CacheAddAll PolicyA.STATIC_CACHE
                       (List.map (resolve_url P) PolicyA.STATIC_FILES)]
                 ++ List.map NetFetch (List.map (resolve_url P) PolicyA.STATIC_FILES)
                 ++ [ConsoleLog "Service Worker: Installation complete";
                     SkipWaiting] |}).
Proof.
  intros Ho He.
  unfold bind at 1, console_log at 1, emit at 1.
  unfold PolicyA.install_promise, catch.
  unfold bind at 1. rewrite caches_open_ok by exact Ho.
  unfold bind at 1, bind at 1, console_log at 1, emit at 1.
  rewrite (addAll_fulfils P _ _ es _ He), log_skip_run.
  cbn [caches consumed next_stream trace].
  f_equal. f_equal. rewrite <- !app_assoc. reflexivity.
Qed.

(** Both install listeners of Policy B when the manifest can be fetched and
    stored. *)
Lemma install_fulfils_B (P : Platform) (es : list (string * Snapshot)) (w : World) :
  open_ok P PolicyB.STATIC_CACHE = true ->
  addAll_entries P PolicyB.STATIC_CACHE
    (List.map (resolve_url P) PolicyB.STATIC_FILES) = Fulfilled es ->
  PolicyB.on_install P w =
    (Fulfilled tt,
     {| caches := storage_put_all PolicyB.STATIC_CACHE es
                    (storage_open PolicyB.STATIC_CACHE
                       (storage_put_all PolicyB.STATIC_CACHE es
                          (storage_open PolicyB.STATIC_CACHE (caches w))));
        consumed := consumed w; next_stream := next_stream w;
        trace := trace w
                 ++ [ConsoleLog "Service Worker: Installing for offline use...";
                     CachesOpen PolicyB.STATIC_CACHE;
                     ConsoleLog "Service Worker: Caching all files for offline use";
                     CacheAddAll PolicyB.STATIC_CACHE
                       (List.map (resolve_url P) PolicyB.STATIC_FILES)]
                 ++ List.map NetFetch (List.map (resolve_url P) PolicyB.STATIC_FILES)
                 ++ [ConsoleLog "Service Worker: Ready for offline use";
                     SkipWaiting;
                     CachesOpen PolicyB.STATIC_CACHE;
                     CacheAddAll PolicyB.STATIC_CACHE
                       (List.map (resolve_url P) PolicyB.STATIC_FILES)]
                 ++ List.map NetFetch (List.map (resolve_url P) PolicyB.STATIC_FILES)
                 ++ [ConsoleLog "Service Worker: App ready for offline use";
                     SkipWaiting] |}).
Proof.
  intros Ho He.
  unfold PolicyB.on_install, wait_until_both.
  unfold bind at 1, console_log at 1, emit at 1.
  unfold PolicyB.install_promise, catch.
  unfold bind at 1. rewrite caches_open_ok by exact Ho.
  unfold bind at 1, bind at 1, console_log at 1, emit at 1.
  rewrite (addAll_fulfils P _ _ es _ He), log_skip_run.
  unfold PolicyB.ensure_promise.
  unfold bind at 1. rewrite caches_open_ok by exact Ho.
  unfold bind at 1.
  rewrite (addAll_fulfils P _ _ es _ He), log_skip_run.
  cbn [caches consumed next_stream trace].
  f_equal. f_equal. rewrite <- !app_assoc. reflexivity.
Qed.

Lemma manifest_entry_held (P : Platform) (name u : string) (d : Snapshot)
    (files : list string) (es : list (string * Snapshot)) (cs : CacheStorage) :
  List.map fst es = List.map (resolve_url P) files ->
  (∀ e, In e es -> network P (fst e) = Some (snd e)) ->
  In u files ->
  network P (resolve_url P u) = Some d ->
  holds_at name (resolve_url P u) d (storage_put_all name es cs) = true.
Proof.
  intros Hm Hn Hu Hd. apply (holds_after_put_all P); [exact Hn | exact Hd |].
  right. rewrite Hm. by apply in_map.
Qed.

(** X9. When the static generation can be opened and every manifest file
    can be fetched with an ok status and stored, the install event fulfils,
    [skipWaiting] is called, and each manifest URL reads back from the static
    generation as the response the network gave for it; this holds from any
    store, under both policies. *)
Theorem install_makes_manifest_retrievable
    (P : Platform) (w : World) (u : string) (d : Snapshot) :
  In u PolicyA.STATIC_FILES ->
  network P (resolve_url P u) = Some d ->
  (manifest_fails_A P = false ->
   fst (PolicyA.on_install P w) = Fulfilled tt
   /\ cache_entry PolicyA.STATIC_CACHE (resolve_url P u)
        (caches (snd (PolicyA.on_install P w))) = Some d
   /\ In SkipWaiting (trace (snd (PolicyA.on_install P w))))
  /\ (manifest_fails_B P = false ->
      fst (PolicyB.on_install P w) = Fulfilled tt
      /\ cache_entry PolicyB.STATIC_CACHE (resolve_url P u)
           (caches (snd (PolicyB.on_install P w))) = Some d
      /\ In SkipWaiting (trace (snd (PolicyB.on_install P w)))).
Proof.
  intros Hu Hd. split; intros Hok.
  - destruct (manifest_ok_A P Hok) as (Ho & es & He & Hm & Hn).
    unfold PolicyA.on_install.
    rewrite (install_promise_fulfils_A P es w Ho He). unfold detach.
    match goal with |- context [PolicyA.cleanupCaches ?x] =>
      destruct (cleanupCaches_run x) as [bs ->] end.
    cbn [fst snd caches trace]. split; [reflexivity|]. split.
    + rewrite (cache_entry_filter (fun n => negb (PolicyA.is_old n))) by reflexivity.
      apply cache_entry_of_holds.
      * by apply (manifest_entry_held P _ u d PolicyA.STATIC_FILES).
      * by rewrite has_cache_after_put_all, has_cache_after_open.
    + rewrite !in_app_iff. simpl. tauto.
  - destruct (manifest_ok_B P Hok) as (Ho & es & He & Hm & Hn).
    rewrite (install_fulfils_B P es w Ho He).
    cbn [fst snd caches trace]. split; [reflexivity|]. split.
    + apply cache_entry_of_holds.
      * by apply (manifest_entry_held P _ u d PolicyB.STATIC_FILES).
      * by rewrite has_cache_after_put_all, has_cache_after_open.
    + rewrite !in_app_iff. simpl. tauto.
Qed.

Lemma install_makes_manifest_retrievable_witness :
  (fst (PolicyA.on_install Demo.Online Scenario.cluttered) = Fulfilled tt
   /\ cache_entry PolicyA.STATIC_CACHE (resolve_url Demo.Online "./manifest.json")
        (caches (snd (PolicyA.on_install Demo.Online Scenario.cluttered)))
      = Some (Demo.page "manifest")
   /\ In SkipWaiting (trace (snd (PolicyA.on_install Demo.Online Scenario.cluttered))))
  /\ (fst (PolicyB.on_install Demo.Online Scenario.cluttered) = Fulfilled tt
      /\ cache_entry PolicyB.STATIC_CACHE (resolve_url Demo.Online "./manifest.json")
           (caches (snd (PolicyB.on_install Demo.Online Scenario.cluttered)))
         = Some (Demo.page "manifest")
      /\ In SkipWaiting (trace (snd (PolicyB.on_install Demo.Online Scenario.cluttered)))).
Proof.
  destruct (install_makes_manifest_retrievable Demo.Online Scenario.cluttered
              "./manifest.json" (Demo.page "manifest")) as [HA HB].
  - simpl. tauto.
  - reflexivity.
  - split; [apply HA | apply HB]; reflexivity.
Defined.

Lemma lookup_single_generation (name u : string) (d : Snapshot) (cs : CacheStorage) :
  holds_at name u d cs = true -> has_cache name cs = true ->
  storage_lookup (List.filter (fun p => String.eqb (fst p) name) cs) u = Some d.
Proof.
  unfold holds_at, has_cache.
  induction cs as [|[m c] cs IH]; simpl; [discriminate|].
  intros H. apply andb_true_iff in H as [Hh H].
  destruct (String.eqb m name); simpl in *.
  - intros _. apply bool_decide_eq_true in Hh. by rewrite Hh.
  - by apply IH.
Qed.

(** X10. Install, activate, go offline: under Policy B, once the install
    event has succeeded and activation has run, a GET for any manifest URL is
    answered from the store with the response fetched at install time and
    without a network call, whatever the store held before the install and
    whatever the network does now. *)
Theorem installed_manifest_served_offline_B
    (P P' : Platform) (w : World) (req : Request) (u : string) (d : Snapshot) :
  manifest_fails_B P = false ->
  In u PolicyB.STATIC_FILES ->
  network P (resolve_url P u) = Some d ->
  method req = "GET" ->
  url req = resolve_url P u ->
  same_origin (location_origin P') req ->
  served_from_store (PolicyB.on_fetch P') req
    (snd (PolicyB.on_activate (snd (PolicyB.on_install P w)))) d.
Proof.
  intros Hok Hu Hd Hm Hurl Ho.
  apply (served_on_hit P' req _ d Hm Ho). rewrite Hurl.
  destruct (manifest_ok_B P Hok) as (Hopen & es & He & Hmap & Hn).
  rewrite (install_fulfils_B P es w Hopen He).
  rewrite activation_B, activation_run. cbn [snd caches].
  rewrite (List.filter_ext _ (fun p => String.eqb (fst p) PolicyB.STATIC_CACHE)).
  - apply lookup_single_generation.
    + by apply (manifest_entry_held P _ u d PolicyB.STATIC_FILES).
    + by rewrite has_cache_after_put_all, has_cache_after_open.
  - intros p. unfold PolicyB.is_old. apply negb_involutive.
Qed.

Lemma installed_manifest_served_offline_B_witness :
  served_from_store (PolicyB.on_fetch Demo.Offline)
    {| method := "GET"; url := "https://a.com/app/index.html";
       destination := "document" |}
    (snd (PolicyB.on_activate (snd (PolicyB.on_install Demo.Online Scenario.cluttered))))
    (Demo.page "index").
Proof.
  apply (installed_manifest_served_offline_B Demo.Online Demo.Offline
           Scenario.cluttered _ "./index.html" (Demo.page "index"));
    try reflexivity.
  simpl. tauto.
Defined.

(** ** Further behaviour of the command channel *)

(** X14. A [SKIP_WAITING] message makes both policies call
    [self.skipWaiting()] and nothing else besides the console line: no reply
    is posted, the store is not consulted, and a reply port is not needed. *)
Theorem skip_waiting_takes_over_without_reply
    (P : Platform) (ev : MessageEvent) (o : JsObject) (w : World) :
  data ev = Some o ->
  get_field o "type" = Some (JsString "SKIP_WAITING") ->
  PolicyA.on_message ev w =
    (Fulfilled tt,
     {| caches := caches w; consumed := consumed w; next_stream := next_stream w;
        trace := trace w ++ [ConsoleLog "Service Worker: Message received";
                             SkipWaiting] |})
  /\ PolicyB.on_message P ev w =
       (Fulfilled tt,
        {| caches := caches w; consumed := consumed w; next_stream := next_stream w;
           trace := trace w ++ [ConsoleLog "Service Worker: Message received";
                                SkipWaiting] |}).
Proof.
  intros Hd Ht.
  unfold PolicyB.on_message, PolicyA.on_message.
  rewrite (data_type_is_this ev o _ Hd Ht).
  rewrite (data_type_is_other ev o "SKIP_WAITING" "GET_VERSION" Hd Ht) by discriminate.
  rewrite (data_type_is_other ev o "SKIP_WAITING" "CACHE_STATUS" Hd Ht) by discriminate.
  unfold bind, console_log, skipWaiting, emit, ret. simpl.
  rewrite <- !app_assoc. split; reflexivity.
Qed.

Lemma skip_waiting_takes_over_without_reply_witness :
  PolicyA.on_message Scenario.SKIP_WAITING Demo.empty =
    (Fulfilled tt,
     {| caches := []; consumed := []; next_stream := 0;
        trace := [ConsoleLog "Service Worker: Message received"; SkipWaiting] |})
  /\ PolicyB.on_message Demo.Online Scenario.SKIP_WAITING Demo.empty =
       (Fulfilled tt,
        {| caches := []; consumed := []; next_stream := 0;
           trace := [ConsoleLog "Service Worker: Message received"; SkipWaiting] |}).
Proof.
  apply (skip_waiting_takes_over_without_reply Demo.Online Scenario.SKIP_WAITING
           [("type", JsString "SKIP_WAITING")] Demo.empty); reflexivity.
Defined.

Lemma no_command_type (ev : MessageEvent) (t : string) :
  no_command ev ->
  t = "SKIP_WAITING" \/ t = "GET_VERSION" \/ t = "CACHE_STATUS" ->
  data_type_is ev t = false.
Proof.
  intros Hn Ht. unfold data_type_is.
  destruct (data ev) as [o|] eqn:Ed; [|reflexivity].
  apply bool_decide_eq_false_2. intros Heq.
  destruct (Hn o t Ed Heq) as (H1 & H2 & H3).
  destruct Ht as [-> | [-> | ->]]; congruence.
Qed.

(** X15. A message that names none of the three commands (a falsy payload,
    a payload without a string [type], an unknown [type]) is logged and
    otherwise ignored by both policies: no reply is posted, [skipWaiting] is
    not called, the store is not consulted, and the listener does not
    throw. *)
Theorem unknown_message_is_only_logged (P : Platform) (ev : MessageEvent) (w : World) :
  no_command ev ->
  PolicyA.on_message ev w =
    (Fulfilled tt,
     {| caches := caches w; consumed := consumed w; next_stream := next_stream w;
        trace := trace w ++ [ConsoleLog "Service Worker: Message received"] |})
  /\ PolicyB.on_message P ev w =
       (Fulfilled tt,
        {| caches := caches w; consumed := consumed w; next_stream := next_stream w;
           trace := trace w ++ [ConsoleLog "Service Worker: Message received"] |}).
Proof.
  intros Hn.
  unfold PolicyB.on_message, PolicyA.on_message.
  rewrite !(no_command_type ev _ Hn) by tauto.
  unfold bind, console_log, emit, ret. simpl. split; reflexivity.
Qed.

Lemma unknown_message_is_only_logged_witness :
  PolicyA.on_message Scenario.PING Demo.empty =
    (Fulfilled tt,
     {| caches := []; consumed := []; next_stream := 0;
        trace := [ConsoleLog "Service Worker: Message received"] |})
  /\ PolicyB.on_message Demo.Online Scenario.PING Demo.empty =
       (Fulfilled tt,
        {| caches := []; consumed := []; next_stream := 0;
           trace := [ConsoleLog "Service Worker: Message received"] |}).
Proof.
  apply (unknown_message_is_only_logged Demo.Online Scenario.PING Demo.empty).
  intros o t Hd Ht. injection Hd as <-. simpl in Ht. injection Ht as <-.
  repeat split; discriminate.
Defined.

(** X16. A command that wants a reply but comes without a reply port:
    [GET_VERSION] makes the listener of either policy throw a TypeError
    after the console line, with nothing posted; [CACHE_STATUS] under
    Policy B reads the port only inside the callback of the lookup, so the
    listener itself returns normally, the store is looked up once and
    nothing is posted. *)
Theorem command_without_reply_port (P : Platform) (ev : MessageEvent) (o : JsObject)
    (w : World) :
  data ev = Some o ->
  ports ev = [] ->
  (get_field o "type" = Some (JsString "GET_VERSION") ->
   PolicyA.on_message ev w =
     (Rejected (TypeError "Cannot read properties of undefined"),
      {| caches := caches w; consumed := consumed w; next_stream := next_stream w;
         trace := trace w ++ [ConsoleLog "Service Worker: Message received"] |})
   /\ PolicyB.on_message P ev w =
        (Rejected (TypeError "Cannot read properties of undefined"),
         {| caches := caches w; consumed := consumed w; next_stream := next_stream w;
            trace := trace w ++ [ConsoleLog "Service Worker: Message received"] |}))
  /\ (get_field o "type" = Some (JsString "CACHE_STATUS") ->
      ∃ w', PolicyB.on_message P ev w = (Fulfilled tt, w')
            /\ trace w' = trace w
                          ++ [ConsoleLog "Service Worker: Message received";
                              CachesMatch (resolve_url P "./index.html")]
            /\ caches w' = caches w).
Proof.
  intros Hd Hp. split; intros Ht.
  - unfold PolicyB.on_message, PolicyA.on_message.
    rewrite (data_type_is_this ev o _ Hd Ht).
    rewrite (data_type_is_other ev o "GET_VERSION" "SKIP_WAITING" Hd Ht) by discriminate.
    unfold post_message. rewrite Hp.
    unfold bind, console_log, emit, ret, throw. simpl. split; reflexivity.
  - unfold PolicyB.on_message.
    rewrite (data_type_is_this ev o _ Hd Ht).
    rewrite (data_type_is_other ev o "CACHE_STATUS" "SKIP_WAITING" Hd Ht) by discriminate.
    rewrite (data_type_is_other ev o "CACHE_STATUS" "GET_VERSION" Hd Ht) by discriminate.
    unfold post_message. rewrite Hp.
    unfold bind at 1, console_log, emit at 1.
    unfold bind at 1, ret at 1. unfold bind at 1, ret at 1.
    unfold detach, bind at 1.
    destruct (storage_lookup (caches w) (resolve_url P "./index.html")) as [d|] eqn:E.
    + rewrite caches_match_hit with (d := d) by exact E.
      eexists. split; [reflexivity|]. cbn [snd trace caches throw].
      unfold throw. cbn [snd trace caches]. rewrite <- !app_assoc.
      split; reflexivity.
    + rewrite caches_match_miss by exact E.
      eexists. split; [reflexivity|]. unfold throw. cbn [snd trace caches].
      rewrite <- !app_assoc. split; reflexivity.
Qed.

Lemma command_without_reply_port_witness :
  (PolicyA.on_message Scenario.GET_VERSION_no_port Demo.empty =
     (Rejected (TypeError "Cannot read properties of undefined"),
      {| caches := []; consumed := []; next_stream := 0;
         trace := [ConsoleLog "Service Worker: Message received"] |})
   /\ PolicyB.on_message Demo.Online Scenario.GET_VERSION_no_port Demo.empty =
        (Rejected (TypeError "Cannot read properties of undefined"),
         {| caches := []; consumed := []; next_stream := 0;
            trace := [ConsoleLog "Service Worker: Message received"] |}))
  /\ (∃ w', PolicyB.on_message Demo.Online Scenario.CACHE_STATUS_no_port Demo.empty
            = (Fulfilled tt, w')
            /\ trace w' = [ConsoleLog "Service Worker: Message received";
                           CachesMatch "https://a.com/app/index.html"]
            /\ caches w' = []).
Proof.
  split.
  - apply (command_without_reply_port Demo.Online Scenario.GET_VERSION_no_port
             [("type", JsString "GET_VERSION")] Demo.empty); reflexivity.
  - apply (command_without_reply_port Demo.Online Scenario.CACHE_STATUS_no_port
             [("type", JsString "CACHE_STATUS")] Demo.empty); reflexivity.
Defined.

(** ** Notifications and background sync *)

(** X17. Push, then click: for every push payload Policy A shows one
    notification titled "Better Yourself" whose body is the text of the
    payload (the default text only when the event carries no data, so an
    empty payload gives an empty body), and a click on that notification
    closes it and opens the application root [./]. *)
Theorem push_then_click_opens_the_app (payload : option string) (w : World) :
  ∃ options w1,
    PolicyA.on_push payload w = (w1, [PolicyA.ShowNotification "Better Yourself" options])
    /\ PolicyA.opt_body options
       = match payload with
         | Some t => t
         | None => "Better Yourself notification"%string
         end
    /\ caches w1 = caches w
    /\ ∃ w2,
         PolicyA.on_notificationclick (Some (Some (PolicyA.opt_data_url options))) w1
         = (Fulfilled tt, w2, [PolicyA.CloseNotification; PolicyA.OpenWindow "./"])
         /\ trace w2 = trace w
                       ++ [ConsoleLog "Service Worker: Push notification received";
                           ConsoleLog "Service Worker: Notification clicked"]
         /\ caches w2 = caches w.
Proof.
  unfold PolicyA.on_push, PolicyA.on_notificationclick, console_log, emit.
  do 2 eexists. split; [reflexivity|]. cbn. split; [reflexivity|].
  split; [reflexivity|]. eexists. split; [reflexivity|]. cbn.
  rewrite <- app_assoc. split; reflexivity.
Qed.

(** X18. A click on a notification whose data has no usable URL (the field
    is undefined or the empty string) opens the application root [./]; a
    non-empty URL is opened as it is; and a notification without data makes
    the listener throw after the notification has been closed, so that no
    window is opened. *)
Theorem notification_click_falls_back_to_root (data : option (option string))
    (w : World) :
  ∃ o w' calls,
    PolicyA.on_notificationclick data w = (o, w', calls)
    /\ caches w' = caches w
    /\ match data with
       | None =>
           o = Rejected (TypeError "Cannot read properties of null")
           /\ calls = [PolicyA.CloseNotification]
       | Some u =>
           o = Fulfilled tt
           /\ ∃ target,
                calls = [PolicyA.CloseNotification; PolicyA.OpenWindow target]
                /\ target ≠ EmptyString
                /\ (∀ s, u = Some s -> s ≠ EmptyString -> target = s)
                /\ (u = None \/ u = Some EmptyString -> target = "./"%string)
       end.
Proof.
  unfold PolicyA.on_notificationclick, console_log, emit.
  destruct data as [u|]; do 3 eexists; (split; [reflexivity|]); cbn;
    (split; [reflexivity|]); split; try reflexivity.
  eexists. split; [reflexivity|].
  destruct u as [[|c r]|]; cbn; repeat split; try discriminate; try congruence.
  - intros [H|H]; discriminate.
Qed.

(** X19. The sync listeners are placeholders: for every tag they fulfil
    without a store lookup, a store write, a network call or a reply, and
    leave the store as it was; under Policy B the tag [background-sync], and
    no other, runs [syncOfflineData], which logs one more line. *)
Theorem sync_is_a_placeholder (tag : string) (w : World) :
  PolicyA.on_sync tag w =
    (Fulfilled tt,
     {| caches := caches w; consumed := consumed w; next_stream := next_stream w;
        trace := trace w ++ [ConsoleLog "Service Worker: Background sync triggered"] |})
  /\ PolicyB.on_sync tag w =
       (Fulfilled tt,
        {| caches := caches w; consumed := consumed w; next_stream := next_stream w;
           trace := trace w
                    ++ ConsoleLog "Service Worker: Connection restored, syncing data"
                       :: (if bool_decide (tag = "background-sync"%string)
                           then [ConsoleLog "Service Worker: Syncing offline data..."]
                           else []) |}).
Proof.
  unfold PolicyA.on_sync, PolicyB.on_sync, PolicyB.syncOfflineData,
    bind, console_log, emit, ret.
  destruct (String.eqb_spec tag "background-sync") as [E|E]; simpl.
  - rewrite bool_decide_eq_true_2 by exact E. rewrite <- app_assoc.
    split; reflexivity.
  - rewrite bool_decide_eq_false_2 by exact E. split; reflexivity.
Qed.
